(** * novel_downloader: a shallow embedding of [novel_downloader.py]

    The development follows the order of the Python module: the string
    constants, the pieces of the [re], [str] and [int] behaviour the module
    relies on, then the functions of the module, then the properties.

    Conventions of the embedding.
    - A Python [str] is a [list ascii]: the characters are the code points
      below 256.  On such text [\d] matches exactly the characters [0]-[9]
      and [.] matches every character but the line feed (every character
      under [re.DOTALL]).
    - A Python [int] is a [Z]; lengths and [enumerate] indices are [nat].
    - A call either returns, raises, or leaves the modelled fragment of the
      regular-expression syntax ([outcome]).
    - Files are a finite map from paths to text.  [logging] calls are left
      out: they do not influence any returned value. *)

From Stdlib Require Import Ascii String ZArith Lia List Bool Arith.
From stdpp Require Import gmap strings list.

Import ListNotations.
Local Open Scope char_scope.
Local Open Scope list_scope.

(** ** Text *)

Abbreviation text := (list ascii).

(** A string literal of the source, as text. *)
Definition str (s : string) : text := list_ascii_of_string s.

Definition dquote : ascii := "034".
Definition newline : ascii := "010".
Definition carriage_return : ascii := "013".
Definition backslash : ascii := "092".

(** ** Outcomes of a call *)

Inductive exn : Type :=
| AttributeError      (* [.group()] on the [None] that a failed search returns *)
| ValueError          (* a tuple unpacking of the wrong size, a bad [int()] literal *)
| FileNotFoundError   (* [open(path, "r")] on a path that was never written *)
| TransportError      (* whatever [session.get] raises *)
| NoSuchElementException   (* [driver.find_element] without a matching element *)
| TemplateError.      (* whatever [jinja2] raises on a template *)

Inductive outcome (A : Type) : Type :=
| Ok (a : A)
| Raise (e : exn)
| Unmodelled.   (* the pattern leaves the fragment of [re] syntax modelled below *)

Arguments Ok {A} a.
Arguments Raise {A} e.
Arguments Unmodelled {A}.

Definition obind {A B} (x : outcome A) (f : A -> outcome B) : outcome B :=
  match x with
  | Ok a => f a
  | Raise e => Raise e
  | Unmodelled => Unmodelled
  end.

#[global] Instance outcome_ret : MRet outcome := fun A a => Ok a.
#[global] Instance outcome_bind : MBind outcome := fun A B f x => obind x f.

(** ** The fragment of [re] used by the module

    The patterns of the module are sequences of atoms ([.], [\d], [\n], a
    literal character), each optionally followed by a greedy [*] or [+].
    The slug of the novel is spliced into one of them unescaped, so the
    pattern text is parsed here rather than written as a term. *)

Module re.

Inductive atom : Type :=
| Any                 (* [.] *)
| Digit               (* [\d] *)
| Chr (c : ascii).    (* a literal character *)

Inductive quant : Type := One | Star | Plus.

Abbreviation pattern := (list (atom * quant)).

Inductive token : Type := TAtom (a : atom) | TStar | TPlus.

(** Characters with a meaning of their own in a pattern that the fragment
    does not cover: [[ { ( ) ? ^ $ |]. *)
Definition outside_fragment (c : ascii) : bool :=
  existsb (Ascii.eqb c) (str "[{()?^$|").

Definition token_of (c : ascii) : option token :=
  if Ascii.eqb c "." then Some (TAtom Any)
  else if Ascii.eqb c "*" then Some TStar
  else if Ascii.eqb c "+" then Some TPlus
  else if outside_fragment c then None
  else Some (TAtom (Chr c)).

Definition escape (c : ascii) : option token :=
  if Ascii.eqb c "d" then Some (TAtom Digit)
  else if Ascii.eqb c "n" then Some (TAtom (Chr newline))
  else None.

Fixpoint lex (p : text) : option (list token) :=
  match p with
  | [] => Some []
  | c :: rest =>
      if Ascii.eqb c backslash then
        match rest with
        | [] => None
        | e :: rest' =>
            match escape e, lex rest' with
            | Some t, Some ts => Some (t :: ts)
            | _, _ => None
            end
        end
      else
        match token_of c, lex rest with
        | Some t, Some ts => Some (t :: ts)
        | _, _ => None
        end
  end.

Fixpoint items (ts : list token) : option pattern :=
  match ts with
  | [] => Some []
  | TAtom a :: TStar :: ts' => option_map (cons (a, Star)) (items ts')
  | TAtom a :: TPlus :: ts' => option_map (cons (a, Plus)) (items ts')
  | TAtom a :: ts' => option_map (cons (a, One)) (items ts')
  | _ => None   (* nothing to repeat, or a repeat of a repeat *)
  end.

Definition compile (p : text) : option pattern :=
  match lex p with
  | Some ts => items ts
  | None => None
  end.

Definition is_digit (c : ascii) : bool :=
  (48 <=? nat_of_ascii c)%nat && (nat_of_ascii c <=? 57)%nat.

Definition atom_matches (dotall : bool) (a : atom) (c : ascii) : bool :=
  match a with
  | Any => dotall || negb (Ascii.eqb c newline)
  | Digit => is_digit c
  | Chr c' => Ascii.eqb c c'
  end.

(** The greedy repetition of one atom: take the character when it matches
    and go on; when what follows fails after that, give the character back
    and let the rest of the pattern try from here. *)
Fixpoint greedy (ok : ascii -> bool) (next : text -> option text) (s : text)
  : option text :=
  match s with
  | c :: s' =>
      if ok c then
        match greedy ok next s' with
        | Some m => Some (c :: m)
        | None => next s
        end
      else next s
  | [] => next s
  end.

(** [match_items dotall p accept s]: the text matched by [p] at the start of
    [s], found in backtracking order; [accept] judges the text left over. *)
Fixpoint match_items (dotall : bool) (p : pattern) (accept : text -> bool)
  (s : text) : option text :=
  match p with
  | [] => if accept s then Some [] else None
  | (a, q) :: p' =>
      let next := match_items dotall p' accept in
      match q with
      | One =>
          match s with
          | c :: s' =>
              if atom_matches dotall a c then option_map (cons c) (next s')
              else None
          | [] => None
          end
      | Star => greedy (atom_matches dotall a) next s
      | Plus =>
          match s with
          | c :: s' =>
              if atom_matches dotall a c
              then option_map (cons c) (greedy (atom_matches dotall a) next s')
              else None
          | [] => None
          end
      end
  end.

(** A match starting at the first character of [s]; with [must_advance] an
    empty match is refused and the alternatives are tried. *)
Definition match_at (p : pattern) (dotall must_advance : bool) (s : text)
  : option text :=
  match_items dotall p
    (fun rest => negb (must_advance && (length rest =? length s)%nat)) s.

(** [re.search]: the leftmost position with a match; the result stands for
    the match object, the text being what its [group()] returns. *)
Fixpoint search_items (p : pattern) (dotall : bool) (s : text) : option text :=
  match match_at p dotall false s with
  | Some m => Some m
  | None =>
      match s with
      | [] => None
      | _ :: s' => search_items p dotall s'
      end
  end.

(** The scan shared by [re.findall] and [re.sub]: the non-overlapping
    matches from left to right, with the characters between them.  After a
    match of [n > 0] characters the next [n - 1] positions are inside it
    ([skip]); after an empty match the same position is tried once more for
    a match that advances. *)
Inductive piece : Type := Gap (c : ascii) | Hit (m : text).

Fixpoint pieces (p : pattern) (dotall : bool) (skip : nat) (s : text)
  : list piece :=
  match s with
  | [] =>
      match skip, match_at p dotall false [] with
      | O, Some m => [Hit m]
      | _, _ => []
      end
  | c :: s' =>
      match skip with
      | S k => pieces p dotall k s'
      | O =>
          match match_at p dotall false s with
          | None => Gap c :: pieces p dotall 0 s'
          | Some (x :: m) => Hit (x :: m) :: pieces p dotall (length m) s'
          | Some [] =>
              Hit [] ::
              match match_at p dotall true s with
              | Some (x :: m) => Hit (x :: m) :: pieces p dotall (length m) s'
              | _ => Gap c :: pieces p dotall 0 s'
              end
          end
      end
  end.

Definition hits (ps : list piece) : list text :=
  flat_map (fun x => match x with Hit m => [m] | Gap _ => [] end) ps.

Definition substitute (repl : text) (ps : list piece) : text :=
  flat_map (fun x => match x with Hit _ => repl | Gap c => [c] end) ps.

(** The scanned text, put back together from the pieces. *)
Definition restore (ps : list piece) : text :=
  flat_map (fun x => match x with Hit m => m | Gap c => [c] end) ps.

Definition with_pattern {A} (p : text) (f : pattern -> A) : outcome A :=
  match compile p with
  | Some items => Ok (f items)
  | None => Unmodelled
  end.

(** [re.search(pattern, string)] and its [flags=re.DOTALL] form. *)
Definition search (p : text) (s : text) (dotall : bool) : outcome (option text) :=
  with_pattern p (fun items => search_items items dotall s).

(** [re.findall(pattern, string, flags)] for a pattern without groups. *)
Definition findall (p : text) (s : text) (dotall : bool) : outcome (list text) :=
  with_pattern p (fun items => hits (pieces items dotall 0 s)).

(** [re.sub(pattern, repl, string)] for a replacement without backslashes. *)
Definition sub (p : text) (repl : text) (s : text) : outcome text :=
  with_pattern p (fun items => substitute repl (pieces items false 0 s)).

(** [m.group()] on the result of a search. *)
Definition group (m : option text) : outcome text :=
  match m with
  | Some g => Ok g
  | None => Raise AttributeError
  end.

End re.

(** ** The [str], [int] and file behaviour the module relies on *)

Module py.

Definition digit_char (d : nat) : ascii := ascii_of_nat (48 + d).

(** The decimal digits of [n], most significant first; [fuel] bounds the
    number of digits. *)
Fixpoint digits_of (fuel n : nat) : text :=
  match fuel with
  | O => []
  | S fuel' =>
      (if (n <? 10)%nat then [] else digits_of fuel' (n / 10))
        ++ [digit_char (n mod 10)]
  end.

Definition str_nat (n : nat) : text := digits_of (S n) n.

(** [str(i)] for an [int]. *)
Definition str_int (i : Z) : text :=
  if (i <? 0)%Z then "-" :: str_nat (Z.to_nat (- i)) else str_nat (Z.to_nat i).

Definition digit_value (c : ascii) : nat := nat_of_ascii c - 48.

Definition decimal_value (s : text) : nat :=
  fold_left (fun acc c => 10 * acc + digit_value c) s 0.

(** [int(s)] on a non-empty run of digits, which is all the module passes
    to it (a match of [\d+]); other literals are left out of the model, and
    so is the limit that recent interpreters put on the number of digits. *)
Definition int (s : text) : outcome Z :=
  match s with
  | [] => Unmodelled
  | _ :: _ =>
      if forallb re.is_digit s then Ok (Z.of_nat (decimal_value s))
      else Unmodelled
  end.

(** [s.zfill(width)]: zeros on the left up to [width], after the sign when
    there is one. *)
Definition zfill (s : text) (width : Z) : text :=
  let fill := Z.to_nat (width - Z.of_nat (length s)) in
  match s with
  | c :: s' =>
      if Ascii.eqb c "+" || Ascii.eqb c "-"
      then c :: repeat "0" fill ++ s'
      else repeat "0" fill ++ s
  | [] => repeat "0" fill
  end.

(** The text before the first [sep] and the text after it. *)
Fixpoint break_at (sep : ascii) (s : text) : option (text * text) :=
  match s with
  | [] => None
  | c :: s' =>
      if Ascii.eqb c sep then Some ([], s')
      else match break_at sep s' with
           | Some (a, b) => Some (c :: a, b)
           | None => None
           end
  end.

(** [s.split(sep, maxsplit)] for a one-character separator. *)
Fixpoint split (sep : ascii) (maxsplit : nat) (s : text) : list text :=
  match maxsplit with
  | O => [s]
  | S m =>
      match break_at sep s with
      | Some (a, b) => a :: split sep m b
      | None => [s]
      end
  end.

(** [s.rsplit(sep, maxsplit)]: the same cuts, counted from the right. *)
Definition rsplit (sep : ascii) (maxsplit : nat) (s : text) : list text :=
  rev (map (@rev ascii) (split sep maxsplit (rev s))).

(** [sep.join(parts)]. *)
Fixpoint join (sep : text) (parts : list text) : text :=
  match parts with
  | [] => []
  | [x] => x
  | x :: rest => x ++ sep ++ join sep rest
  end.

(** [range(lo, hi)]. *)
Definition range (lo hi : Z) : list Z :=
  map (fun k => (lo + Z.of_nat k)%Z) (seq 0 (Z.to_nat (hi - lo))).

(** [enumerate(xs)]. *)
Definition enumerate {A} (xs : list A) : list (nat * A) :=
  combine (seq 0 (length xs)) xs.

(** Reading a file opened in text mode translates line endings: [\r\n] and
    a lone [\r] come back as [\n].  (Writing leaves [\n] alone on POSIX.) *)
Fixpoint universal_newlines (s : text) : text :=
  match s with
  | [] => []
  | c :: s' =>
      if Ascii.eqb c carriage_return then
        newline ::
        match s' with
        | d :: s'' =>
            if Ascii.eqb d newline then universal_newlines s''
            else universal_newlines s'
        | [] => []
        end
      else c :: universal_newlines s'
  end.

End py.

(** ** The constants of the module *)

Module RegEx.
Definition ANYTHING : text := str ".*".
Definition ANY_NUMBERS : text := str "\d+".
Definition ANY_WHITE_LINES : text := str "\n+".
Definition LAST_PAGE_CONTAINER : text :=
  str "data-page=" ++ [dquote] ++ ANY_NUMBERS ++ ANYTHING ++ str "Final".
End RegEx.

Module Html.
Definition DOUBLE_LINE_BREAK : text := str "<br><br>".
Definition CHAPTER_BODY_ID : text := str "chapter-content".
Definition CHAPTER_TITLE_CLASS : text := str "chapter-title".
End Html.

Module FolderName.
Definition OUTPUT : text := str "output".
Definition CHAPTERS : text := str "chapters".
Definition TEMPLATES : text := str "templates".
End FolderName.

Module FilePath.
Definition LOG_FILE : text := str "novel_downloader.log".
Definition HOME_PAGE : text := FolderName.OUTPUT ++ str "/home.html".
Definition CHAPTER_TEMPLATE : text :=
  FolderName.TEMPLATES ++ str "/chapter_template.html".
Definition NOVEL_TEMPLATE : text :=
  FolderName.TEMPLATES ++ str "/novel_template.html".
End FilePath.

Record Chapter : Type := {
  number_padded : text;
  title : text;
  html : text
}.

(** ** The collaborators and the world

    The transport session, the browser session, the template engine and the
    Unicode-aware [str] methods are outside the module; they are taken as
    functions.  The world the module changes is the set of written files
    and the page the browser is on. *)

Inductive By : Type := CLASS_NAME | ID.

Inductive template_value : Type :=
| VText (t : text)
| VList (l : list text).

Class Collaborators : Type := {
  (* [session.get(url).text] *)
  session_get : text -> outcome text;
  (* [driver.find_element(by, name).text] on the page loaded from a url *)
  find_element_text : text -> By -> text -> outcome text;
  (* [Template(source).render(name=value, ...)] *)
  template_render : text -> list (text * template_value) -> outcome text;
  (* [s.title()] and [s.casefold()] *)
  str_title : text -> text;
  str_casefold : text -> text
}.

Record World : Type := {
  files : gmap text text;
  driver_url : option text
}.

Definition M (A : Type) : Type := World -> World * outcome A.

Definition ret {A} (a : A) : M A := fun w => (w, Ok a).

Definition bind {A B} (m : M A) (f : A -> M B) : M B :=
  fun w =>
    match m w with
    | (w', Ok a) => f a w'
    | (w', Raise e) => (w', Raise e)
    | (w', Unmodelled) => (w', Unmodelled)
    end.

Definition lift {A} (o : outcome A) : M A := fun w => (w, o).

#[global] Instance M_ret : MRet M := fun A a => ret a.
#[global] Instance M_bind : MBind M := fun A B f m => bind m f.

(** [open(file_path, "w").write(text)] *)
Definition write_file (file_path contents : text) : M unit :=
  fun w =>
    ({| files := <[file_path := contents]> (files w);
        driver_url := driver_url w |}, Ok tt).

(** [open(file_path, "r").read()] *)
Definition read_file (file_path : text) : M text :=
  fun w =>
    (w, match files w !! file_path with
        | Some contents => Ok (py.universal_newlines contents)
        | None => Raise FileNotFoundError
        end).

(** [driver.get(url)] *)
Definition driver_get (url : text) : M unit :=
  fun w => ({| files := files w; driver_url := Some url |}, Ok tt).

(** [driver.close()] *)
Definition driver_close : M unit :=
  fun w => ({| files := files w; driver_url := None |}, Ok tt).

(** ** The functions of the module *)

Section Downloader.

Context {collaborators : Collaborators}.

(** [driver.find_element(by, name).text] *)
Definition driver_find_element (by_ : By) (name : text) : M text :=
  fun w =>
    (w, match driver_url w with
        | Some url => find_element_text url by_ name
        | None => Raise NoSuchElementException
        end).

Definition get_novel_dir (novel_title : text) : text :=
  FolderName.OUTPUT ++ str "/" ++ novel_title.

Definition get_chapters_dir (novel_dir : text) : text :=
  novel_dir ++ str "/" ++ FolderName.CHAPTERS.

(** [os.makedirs] has no counterpart: directories are not part of the world. *)
Definition create_directories (novel_title : text) : M (text * text) :=
  let novel_dir := get_novel_dir novel_title in
  let chapters_dir := get_chapters_dir novel_dir in
  ret (novel_dir, chapters_dir).

Definition text_to_file (contents file_path : text) : M unit :=
  write_file file_path contents.

Definition url_to_file (url file_path : text) : M unit :=
  response_text ← lift (session_get url);
  text_to_file response_text file_path.

Definition download_home_page (home_url : text) : M unit :=
  url_to_file home_url FilePath.HOME_PAGE.

Definition get_total_pages_in_chapter_pager : M Z :=
  file_content ← read_file FilePath.HOME_PAGE;
  lift (found ← re.search RegEx.LAST_PAGE_CONTAINER file_content false;
        container ← re.group found;
        number ← re.search RegEx.ANY_NUMBERS container false;
        digits ← re.group number;
        py.int digits).

Definition _pad_number (number pad_length : Z) : text :=
  py.zfill (py.str_int number) pad_length.

Definition _split_home_url (home_url : text) : outcome (text * text) :=
  match py.rsplit "/" 2 home_url with
  | [base_domain; novel_title; _] => Ok (base_domain, novel_title)
  | _ => Raise ValueError
  end.

Definition parse_chapter_urls (listing_page_content home_url : text)
  : outcome (list text) :=
  '(base_domain, novel_title) ← _split_home_url home_url;
  let rel_url_pattern :=
    str "/" ++ novel_title ++ str "-" ++ RegEx.ANY_NUMBERS ++ str ".html" in
  chapter_rel_urls ← re.findall rel_url_pattern listing_page_content true;
  Ok (map (fun rp => base_domain ++ rp) chapter_rel_urls).

(** The body of the loop of [extract_chapter_urls]: the locators of one
    page, the first six matches dropped. *)
Definition extract_chapter_urls_step (page_number : Z) (home_url : text)
  : outcome (list text) :=
  let page_url := home_url ++ str "?page=" ++ py.str_int page_number in
  page_content ← session_get page_url;
  chapter_urls_in_page ← parse_chapter_urls page_content home_url;
  Ok (skipn 6 chapter_urls_in_page).

Fixpoint extract_chapter_urls_loop (page_numbers : list Z) (home_url : text)
  (chapter_urls : list text) : outcome (list text) :=
  match page_numbers with
  | [] => Ok chapter_urls
  | page_number :: rest =>
      chapter_urls_in_page ← extract_chapter_urls_step page_number home_url;
      extract_chapter_urls_loop rest home_url
        (chapter_urls ++ chapter_urls_in_page)
  end.

Definition extract_chapter_urls (chapter_pager_last : Z) (home_url : text)
  : outcome (list text) :=
  extract_chapter_urls_loop (py.range 1 (chapter_pager_last + 1)) home_url [].

Definition convert_line_breaks_to_html (s : text) : outcome text :=
  re.sub RegEx.ANY_WHITE_LINES Html.DOUBLE_LINE_BREAK s.

Definition render_chapter_template (chapter_title chapter_body : text) : M text :=
  source ← read_file FilePath.CHAPTER_TEMPLATE;
  lift (template_render source
          [(str "chapter_title", VText chapter_title);
           (str "chapter_body", VText chapter_body)]).

(** [title.split(sep=" ")] cuts at every space; the length of the title
    bounds their number. *)
Definition save_chapter (chapter : Chapter) (chapters_dir : text) : M unit :=
  let dashed_title :=
    str_casefold
      (py.join (str "-")
         (py.split " " (length (title chapter)) (title chapter))) in
  let file_path :=
    chapters_dir ++ str "/" ++ number_padded chapter ++ str "_"
      ++ dashed_title ++ str ".html" in
  text_to_file (html chapter) file_path.

Definition render_novel_template (chapter_htmls : list text) : M text :=
  source ← read_file FilePath.NOVEL_TEMPLATE;
  lift (template_render source [(str "chapter_htmls", VList chapter_htmls)]).

Definition save_novel (novel_html novel_title novel_dir : text) : M text :=
  let file_path := novel_dir ++ str "/" ++ novel_title ++ str ".html" in
  text_to_file novel_html file_path;;
  ret file_path.

Definition download_chapter (url chapters_dir padded_chapter_number : text)
  : M text :=
  driver_get url;;
  title_text ← driver_find_element CLASS_NAME Html.CHAPTER_TITLE_CLASS;
  let chapter_title := str_title title_text in
  chapter_body_plain ← driver_find_element ID Html.CHAPTER_BODY_ID;
  chapter_body_html ← lift (convert_line_breaks_to_html chapter_body_plain);
  chapter_html ← render_chapter_template chapter_title chapter_body_html;
  let chapter :=
    {| number_padded := padded_chapter_number;
       title := chapter_title;
       html := chapter_html |} in
  save_chapter chapter chapters_dir;;
  ret chapter_html.

Fixpoint download_all_chapters_loop (numbered : list (nat * text))
  (pad_length : Z) (chapters_dir : text) (chapter_htmls : list text)
  : M (list text) :=
  match numbered with
  | [] => ret chapter_htmls
  | (chapter_number, chapter_url) :: rest =>
      let padded_chapter_number :=
        _pad_number (Z.of_nat chapter_number + 1) pad_length in
      chapter_html ←
        download_chapter chapter_url chapters_dir padded_chapter_number;
      download_all_chapters_loop rest pad_length chapters_dir
        (chapter_htmls ++ [chapter_html])
  end.

Definition download_all_chapters (chapter_urls : list text) (chapters_dir : text)
  : M (list text) :=
  let total_number_of_chapters := Z.of_nat (length chapter_urls) in
  let pad_length := Z.of_nat (length (py.str_int total_number_of_chapters)) in
  download_all_chapters_loop (py.enumerate chapter_urls) pad_length
    chapters_dir [].

Definition main (url : text) : M unit :=
  '(_, novel_title) ← lift (_split_home_url url);
  '(novel_dir, chapters_dir) ← create_directories novel_title;
  download_home_page url;;
  chapter_pager_last ← get_total_pages_in_chapter_pager;
  chapter_urls ← lift (extract_chapter_urls chapter_pager_last url);
  chapter_htmls ← download_all_chapters chapter_urls chapters_dir;
  novel_html ← render_novel_template chapter_htmls;
  novel_path ← save_novel novel_html novel_title novel_dir;
  driver_close.

End Downloader.

(** * Vocabulary of the properties *)

(** ** What a pattern denotes *)

Fixpoint denotes (dotall : bool) (p : re.pattern) (m : text) : Prop :=
  match p with
  | [] => m = []
  | (a, re.One) :: p' =>
      exists c m', m = c :: m' /\ re.atom_matches dotall a c = true
                   /\ denotes dotall p' m'
  | (a, re.Star) :: p' =>
      exists run m', m = run ++ m'
                     /\ Forall (fun c => re.atom_matches dotall a c = true) run
                     /\ denotes dotall p' m'
  | (a, re.Plus) :: p' =>
      exists c run m', m = c :: run ++ m'
                       /\ re.atom_matches dotall a c = true
                       /\ Forall (fun c => re.atom_matches dotall a c = true) run
                       /\ denotes dotall p' m'
  end.

(** The pattern [LAST_PAGE_CONTAINER] occurs in the text: the attribute
    name, a quote, a digit and, later on the same line, the label. *)
Definition has_last_page_container (content : text) : Prop :=
  exists before digit between after,
    content = before ++ str "data-page=" ++ [dquote] ++ [digit] ++ between
                     ++ str "Final" ++ after
    /\ re.is_digit digit = true
    /\ newline ∉ between.


(** The sequence strings that a run over [total] chapters hands to
    [download_chapter], in the order of the loop of [download_all_chapters]. *)
Definition sequence_strings (total : nat) : list text :=
  map (fun chapter_number =>
         _pad_number (Z.of_nat chapter_number + 1)
           (Z.of_nat (length (py.str_int (Z.of_nat total)))))
      (seq 0 total).

(** One call per element, in order, stopping at the first that does not
    return. *)
Fixpoint for_each {A B} (f : A -> M B) (xs : list A) : M (list B) :=
  match xs with
  | [] => ret []
  | x :: rest =>
      y ← f x;
      ys ← for_each f rest;
      ret (y :: ys)
  end.

(** The two calls with which [main] assembles the collection. *)
Definition assemble_collection {collaborators : Collaborators}
  (chapter_htmls : list text)
  (novel_title novel_dir : text) : M (text * text) :=
  novel_html ← render_novel_template chapter_htmls;
  novel_path ← save_novel novel_html novel_title novel_dir;
  ret (novel_html, novel_path).

(** The shape the docstring of [parse_chapter_urls] gives for the relative
    address of a chapter: the slug, a dash, digits, and [.html]. *)
Definition chapter_rel_path (novel_title rel_path : text) : Prop :=
  exists digits,
    digits <> [] /\ Forall (fun c => re.is_digit c = true) digits
    /\ rel_path = str "/" ++ novel_title ++ str "-" ++ digits ++ str ".html".

(** The number of slashes of an address. *)
Definition slashes (s : text) : nat :=
  length (List.filter (fun c => Ascii.eqb c "/") s).

(** The order of [str] under [<], which is the order [sorted] puts file
    names in: by the first character that differs, a proper prefix first. *)
Fixpoint text_lt (s t : text) : bool :=
  match s, t with
  | _, [] => false
  | [], _ :: _ => true
  | a :: s', b :: t' =>
      (nat_of_ascii a <? nat_of_ascii b)%nat
      || ((nat_of_ascii a =? nat_of_ascii b)%nat && text_lt s' t')
  end.

(** A title with every space turned into a dash. *)
Definition dashed (chapter_title : text) : text :=
  map (fun c => if Ascii.eqb c " " then "-" else c) chapter_title.

(** The location at which [save_chapter] puts a chapter. *)
Definition chapter_file_path {collaborators : Collaborators}
  (chapters_dir padded_chapter_number chapter_title : text) : text :=
  chapters_dir ++ str "/" ++ padded_chapter_number ++ str "_"
    ++ str_casefold (dashed chapter_title) ++ str ".html".

(** A computation that leaves every file outside [allowed] as it found it,
    whether it returns or not. *)
Definition writes_only {A} (allowed : text -> Prop) (m : M A) : Prop :=
  forall w path, ~ allowed path -> files (fst (m w)) !! path = files w !! path.

(** A location under the output folder. *)
Definition under_output (path : text) : Prop :=
  exists rest, path = FolderName.OUTPUT ++ str "/" ++ rest.

(** What [main] does once the address is split and the directories are
    named. *)
Definition main_after_split {collaborators : Collaborators}
  (url novel_title : text) : M unit :=
  let novel_dir := get_novel_dir novel_title in
  let chapters_dir := get_chapters_dir novel_dir in
  download_home_page url;;
  chapter_pager_last ← get_total_pages_in_chapter_pager;
  chapter_urls ← lift (extract_chapter_urls chapter_pager_last url);
  chapter_htmls ← download_all_chapters chapter_urls chapters_dir;
  novel_html ← render_novel_template chapter_htmls;
  novel_path ← save_novel novel_html novel_title novel_dir;
  driver_close.

(** A character that stands for itself in a pattern of the fragment. *)
Definition plain_char (c : ascii) : bool :=
  negb (Ascii.eqb c backslash)
  && match re.token_of c with
     | Some (re.TAtom (re.Chr _)) => true
     | _ => false
     end.

(** ** A small site, for closed instances of the statements *)

Module demo.

Definition attribute (name value : text) : text :=
  name ++ str "=" ++ [dquote] ++ value ++ [dquote].

Definition link (href label : text) : text :=
  str "<a " ++ attribute (str "href") href ++ str ">" ++ label ++ str "</a>".

Definition pager_link (page : Z) (label : text) : text :=
  str "<a "
    ++ attribute (str "href") (str "/demo/?page=" ++ py.str_int page)
    ++ str " " ++ attribute (str "data-page") (py.str_int page)
    ++ str ">" ++ label ++ str "</a>".

Definition home_url : text := str "http://h/demo/".

Definition listing (chapters : list Z) : text :=
  concat (map (fun n =>
                 link (str "/demo-" ++ py.str_int n ++ str ".html")
                   (str "Chapter"))
              chapters).

Definition decoys : list Z := [91; 92; 93; 94; 95; 96]%Z.

Definition page_1 : text := listing (decoys ++ [1; 2]%Z).
Definition page_2 : text := listing (decoys ++ [3]%Z).
Definition page_3 : text := listing [4; 5]%Z.

#[export] Instance site : Collaborators := {|
  session_get url :=
    if bool_decide (url = home_url) then Ok (pager_link 2 (str "Final"))
    else if bool_decide (url = home_url ++ str "?page=1") then Ok page_1
    else if bool_decide (url = home_url ++ str "?page=2") then Ok page_2
    else if bool_decide (url = home_url ++ str "?page=3") then Ok page_3
    else Raise TransportError;
  find_element_text url by_ name :=
    match by_ with
    | CLASS_NAME => Ok (str "the title")
    | ID => Ok (str "first" ++ [newline; newline] ++ str "second")
    end;
  template_render source values :=
    Ok (source ++
        concat (map (fun '(_, v) =>
                       match v with
                       | VText t => t
                       | VList l => concat l
                       end) values));
  str_title s := s;
  str_casefold s := s
|}.

Definition templates : gmap text text :=
  {[ FilePath.CHAPTER_TEMPLATE := str "<h1>chapter</h1>";
     FilePath.NOVEL_TEMPLATE := str "<h1>novel</h1>" ]}.

Definition world : World := {| files := templates; driver_url := None |}.

(** A world in which the anchor page has been saved. *)
Definition world_with_home (anchor_markup : text) : World :=
  {| files := <[FilePath.HOME_PAGE := anchor_markup]> templates;
     driver_url := None |}.

End demo.

(** The same site with the body of its second chapter missing. *)
Definition broken_site : Collaborators := {|
  session_get := session_get (Collaborators := demo.site);
  find_element_text url by_ name :=
    match by_ with
    | CLASS_NAME => Ok (str "the title")
    | ID =>
        if bool_decide (url = str "http://h/demo-2.html")
        then Raise NoSuchElementException
        else Ok (str "first" ++ [newline; newline] ++ str "second")
    end;
  template_render := template_render (Collaborators := demo.site);
  str_title s := s;
  str_casefold s := s
|}.

(** * Properties *)

(** Equations between texts that differ by the bracketing of [++]. *)
Ltac text_eq :=
  repeat (cbn [app str list_ascii_of_string]; rewrite <- ?app_assoc);
  reflexivity.

(** ** The matcher against what a pattern denotes *)

Lemma greedy_sound ok next s m :
  re.greedy ok next s = Some m ->
  exists run m' rest,
    s = run ++ rest /\ Forall (fun c => ok c = true) run
    /\ next rest = Some m' /\ m = run ++ m'.
Proof.
  revert m. induction s as [|c s IH]; intros m; simpl.
  - intros H. by exists [], m, [].
  - destruct (ok c) eqn:Hc.
    + destruct (re.greedy ok next s) as [m0|] eqn:Hg.
      * intros [= <-].
        destruct (IH m0 eq_refl) as (run & m' & rest & -> & Hrun & Hn & ->).
        exists (c :: run), m', rest. repeat split; auto.
      * intros H. by exists [], m, (c :: s).
    + intros H. by exists [], m, (c :: s).
Qed.

Lemma match_items_sound dotall p accept s m :
  re.match_items dotall p accept s = Some m ->
  exists rest, s = m ++ rest /\ accept rest = true /\ denotes dotall p m.
Proof.
  revert s m. induction p as [|[a q] p IH]; intros s m; simpl.
  - destruct (accept s) eqn:Ha; [|done]. intros [= <-]. by exists s.
  - destruct q.
    + destruct s as [|c s]; [done|].
      destruct (re.atom_matches dotall a c) eqn:Hc; [|done].
      destruct (re.match_items dotall p accept s) as [m0|] eqn:Hm; [|done].
      intros [= <-]. destruct (IH _ _ Hm) as (rest & -> & Hacc & Hd).
      exists rest. repeat split; auto. by exists c, m0.
    + intros Hg. apply greedy_sound in Hg
        as (run & m' & rest & -> & Hrun & Hn & ->).
      destruct (IH _ _ Hn) as (rest' & -> & Hacc & Hd).
      exists rest'. rewrite app_assoc. repeat split; auto. by exists run, m'.
    + destruct s as [|c s]; [done|].
      destruct (re.atom_matches dotall a c) eqn:Hc; [|done].
      destruct (re.greedy _ _ s) as [m0|] eqn:Hg; [|done].
      intros [= <-]. apply greedy_sound in Hg
        as (run & m' & rest & -> & Hrun & Hn & ->).
      destruct (IH _ _ Hn) as (rest' & -> & Hacc & Hd).
      exists rest'. rewrite app_assoc. repeat split; auto.
      by exists c, run, m'.
Qed.

Lemma search_items_sound p dotall s m :
  re.search_items p dotall s = Some m ->
  exists before after, s = before ++ m ++ after /\ denotes dotall p m.
Proof.
  induction s as [|c s IH]; simpl.
  - destruct (re.match_at p dotall false []) as [m0|] eqn:Hm; [|done].
    intros [= <-]. apply match_items_sound in Hm as (rest & -> & _ & Hd).
    by exists [], rest.
  - destruct (re.match_at p dotall false (c :: s)) as [m0|] eqn:Hm.
    + intros [= <-]. apply match_items_sound in Hm as (rest & -> & _ & Hd).
      by exists [], rest.
    + intros H. destruct (IH H) as (before & after & -> & Hd).
      by exists (c :: before), after.
Qed.

Lemma greedy_complete ok next run s :
  Forall (fun c => ok c = true) run -> is_Some (next s) ->
  is_Some (re.greedy ok next (run ++ s)).
Proof.
  intros Hrun Hnext. induction Hrun as [|c run Hc _ IH]; simpl.
  - destruct s as [|c s]; simpl; [done|].
    destruct (ok c); [|done]. by destruct (re.greedy ok next s).
  - rewrite Hc. by destruct IH as [m ->].
Qed.

Lemma match_items_complete dotall p accept m rest :
  denotes dotall p m -> accept rest = true ->
  is_Some (re.match_items dotall p accept (m ++ rest)).
Proof.
  intros Hd Hacc. revert m Hd.
  induction p as [|[a q] p IH]; intros m; simpl.
  - intros ->. simpl. by rewrite Hacc.
  - destruct q.
    + intros (c & m' & -> & Hc & Hd). simpl. rewrite Hc.
      by destruct (IH _ Hd) as [x ->].
    + intros (run & m' & -> & Hrun & Hd). rewrite <- app_assoc.
      apply greedy_complete; auto.
    + intros (c & run & m' & -> & Hc & Hrun & Hd). simpl. rewrite Hc.
      rewrite <- app_assoc.
      by destruct (greedy_complete _ _ _ _ Hrun (IH _ Hd)) as [x ->].
Qed.

Lemma search_items_complete p dotall before m after :
  denotes dotall p m ->
  is_Some (re.search_items p dotall (before ++ m ++ after)).
Proof.
  intros Hd. induction before as [|c before IH]; simpl.
  - assert (is_Some (re.match_at p dotall false (m ++ after))) as [x Hx]
      by (by apply match_items_complete).
    destruct (m ++ after); simpl; by rewrite Hx.
  - by destruct (re.match_at p dotall false (c :: before ++ m ++ after)).
Qed.

(** The pieces of a scan are the scanned text, cut: the matches lie in the
    text in the order of the list and do not overlap. *)
Lemma pieces_restore p dotall skip s :
  skip <= length s ->
  re.restore (re.pieces p dotall skip s) = drop skip s.
Proof.
  revert skip. induction s as [|c s IH]; intros skip Hskip.
  - destruct skip as [|k]; [|simpl in Hskip; lia]. cbn [re.pieces drop].
    destruct (re.match_at p dotall false []) as [m|] eqn:Hm; [|done].
    apply match_items_sound in Hm as (rest & Heq & _).
    symmetry in Heq. apply app_eq_nil in Heq as [-> _]. reflexivity.
  - destruct skip as [|k]; [|apply IH; simpl in Hskip; lia].
    assert (forall must_advance x m,
               re.match_at p dotall must_advance (c :: s) = Some (x :: m) ->
               re.restore (re.Hit (x :: m) :: re.pieces p dotall (length m) s)
               = c :: s) as Hhit.
    { intros must_advance x m Hm.
      apply match_items_sound in Hm as (rest & Heq & _).
      injection Heq as <- ->. cbn [re.restore flat_map].
      fold (re.restore (re.pieces p dotall (length m) (m ++ rest))).
      rewrite IH by (rewrite length_app; lia).
      by rewrite drop_app_length. }
    assert (re.restore (re.Gap c :: re.pieces p dotall 0 s) = c :: s) as Hgap.
    { cbn [re.restore flat_map app].
      fold (re.restore (re.pieces p dotall 0 s)).
      by rewrite IH by lia. }
    cbn [re.pieces drop].
    destruct (re.match_at p dotall false (c :: s)) as [[|x m]|] eqn:Hm.
    + change (re.restore (re.Hit [] :: ?ps)) with (re.restore ps).
      destruct (re.match_at p dotall true (c :: s)) as [[|x m]|] eqn:Hm';
        eauto.
    + eauto.
    + exact Hgap.
Qed.

(** ** The pager *)

Lemma compile_LAST_PAGE_CONTAINER :
  re.compile RegEx.LAST_PAGE_CONTAINER =
  Some (map (fun c => (re.Chr c, re.One)) (str "data-page=" ++ [dquote])
          ++ [(re.Digit, re.Plus); (re.Any, re.Star)]
          ++ map (fun c => (re.Chr c, re.One)) (str "Final")).
Proof. reflexivity. Qed.


Lemma is_digit_not_newline c : re.is_digit c = true -> c <> newline.
Proof. intros H ->. discriminate H. Qed.

Lemma denotes_literal dotall lit p m :
  denotes dotall (map (fun c => (re.Chr c, re.One)) lit ++ p) m <->
  exists m', m = lit ++ m' /\ denotes dotall p m'.
Proof.
  revert m. induction lit as [|x lit IH]; intros m; simpl.
  - split; [by exists m | by intros (m' & -> & H)].
  - split.
    + intros (c & m' & -> & Hc & Hd). apply Ascii.eqb_eq in Hc as ->.
      apply IH in Hd as (m'' & -> & Hd). by exists m''.
    + intros (m' & -> & Hd). exists x, (lit ++ m'). repeat split.
      * apply Ascii.eqb_refl.
      * apply IH. by exists m'.
Qed.

Lemma denotes_literal_only dotall lit m :
  denotes dotall (map (fun c => (re.Chr c, re.One)) lit) m <-> m = lit.
Proof.
  rewrite <- (app_nil_r (map _ lit)), denotes_literal. simpl. split.
  - intros (m' & -> & ->). apply app_nil_r.
  - intros ->. exists []. by rewrite app_nil_r.
Qed.

Lemma denotes_LAST_PAGE_CONTAINER m :
  denotes false
    (map (fun c => (re.Chr c, re.One)) (str "data-page=" ++ [dquote])
       ++ [(re.Digit, re.Plus); (re.Any, re.Star)]
       ++ map (fun c => (re.Chr c, re.One)) (str "Final")) m <->
  exists digit digits between,
    m = str "data-page=" ++ [dquote] ++ digit :: digits ++ between ++ str "Final"
    /\ re.is_digit digit = true
    /\ Forall (fun c => re.is_digit c = true) digits
    /\ newline ∉ between.
Proof.
  rewrite denotes_literal. cbn [app denotes]. split.
  - intros (m' & -> & c & digits & m'' & -> & Hc & Hds & Hd).
    destruct Hd as (between & m3 & -> & Hb & Hd).
    apply denotes_literal_only in Hd as ->.
    exists c, digits, between. rewrite <- !app_assoc.
    repeat split; auto.
    intros Hin. rewrite Forall_forall in Hb. apply Hb in Hin. discriminate Hin.
  - intros (digit & digits & between & -> & Hc & Hds & Hb).
    eexists. rewrite <- !app_assoc. split; [reflexivity|].
    exists digit, digits, (between ++ str "Final"). repeat split; auto.
    exists between, (str "Final"). repeat split.
    + apply Forall_forall. intros c Hin. simpl.
      destruct (Ascii.eqb_spec c newline) as [->|]; [done|reflexivity].
    + by apply denotes_literal_only.
Qed.

Lemma search_LAST_PAGE_CONTAINER content :
  exists found,
    re.search RegEx.LAST_PAGE_CONTAINER content false = Ok found
    /\ (is_Some found <-> has_last_page_container content).
Proof.
  unfold re.search, re.with_pattern. rewrite compile_LAST_PAGE_CONTAINER.
  eexists. split; [reflexivity|]. split.
  - intros [m Hm]. apply search_items_sound in Hm as (before & after & -> & Hd).
    apply denotes_LAST_PAGE_CONTAINER in Hd
      as (digit & digits & between & -> & Hc & Hds & Hb).
    exists before, digit, (digits ++ between), after.
    split; [by text_eq|]. split; [done|].
    apply not_elem_of_app. split; [|done].
    intros Hin. rewrite Forall_forall in Hds. apply Hds in Hin.
    discriminate Hin.
  - intros (before & digit & between & after & -> & Hc & Hb).
    replace (before ++ str "data-page=" ++ [dquote] ++ [digit] ++ between
               ++ str "Final" ++ after)
      with (before ++ (str "data-page=" ++ [dquote] ++ digit :: [] ++ between
               ++ str "Final") ++ after)
      by text_eq.
    apply search_items_complete, denotes_LAST_PAGE_CONTAINER.
    by exists digit, [], between.
Qed.

Lemma get_total_pages_in_chapter_pager_read w anchor_markup :
  read_file FilePath.HOME_PAGE w = (w, Ok anchor_markup) ->
  get_total_pages_in_chapter_pager w =
  (w, found ← re.search RegEx.LAST_PAGE_CONTAINER anchor_markup false;
      container ← re.group found;
      number ← re.search RegEx.ANY_NUMBERS container false;
      digits ← re.group number;
      py.int digits).
Proof.
  intros Hread. unfold get_total_pages_in_chapter_pager.
  unfold mbind, M_bind, bind. by rewrite Hread.
Qed.

Lemma int_digits s :
  s <> [] -> Forall (fun c => re.is_digit c = true) s ->
  py.int s = Ok (Z.of_nat (py.decimal_value s)).
Proof.
  intros Hs Hd. unfold py.int. destruct s as [|c s]; [done|].
  assert (forallb re.is_digit (c :: s) = true) as ->; [|done].
  apply forallb_forall. intros x Hx. rewrite Forall_forall in Hd.
  by apply Hd, list_elem_of_In.
Qed.


(** C7. When the pattern of the last-page link does not occur in the anchor
    markup, the pager raises (the [AttributeError] of [.group()] on a failed
    search); it returns no integer at all, so no fallback such as 1. *)
Theorem pager_without_marker_raises w anchor_markup :
  read_file FilePath.HOME_PAGE w = (w, Ok anchor_markup) ->
  ~ has_last_page_container anchor_markup ->
  get_total_pages_in_chapter_pager w = (w, Raise AttributeError)
  /\ forall n : Z, snd (get_total_pages_in_chapter_pager w) <> Ok n.
Proof.
  intros Hread Habsent.
  rewrite (get_total_pages_in_chapter_pager_read _ _ Hread).
  destruct (search_LAST_PAGE_CONTAINER anchor_markup) as (found & -> & Hfound).
  destruct found as [m|].
  - destruct Habsent. apply Hfound. by exists m.
  - split; [reflexivity|]. intros n. simpl. discriminate.
Qed.

Lemma has_last_page_container_quote content :
  has_last_page_container content -> dquote ∈ content.
Proof.
  intros (before & digit & between & after & -> & _).
  apply elem_of_app. right. apply elem_of_app. right.
  apply elem_of_app. left. apply list_elem_of_singleton. reflexivity.
Qed.

Lemma pager_without_marker_raises_witness :
  get_total_pages_in_chapter_pager
    (demo.world_with_home (str "<html><body>Chapters</body></html>"))
  = (demo.world_with_home (str "<html><body>Chapters</body></html>"),
     Raise AttributeError).
Proof.
  refine (proj1 (pager_without_marker_raises
                   (demo.world_with_home (str "<html><body>Chapters</body></html>"))
                   (str "<html><body>Chapters</body></html>") _ _)).
  - vm_compute. reflexivity.
  - intros Hin%has_last_page_container_quote.
    refine (bool_decide_eq_false_1 _ _ Hin). vm_compute. reflexivity.
Defined.

(** ** Line breaks *)

Lemma compile_ANY_WHITE_LINES :
  re.compile RegEx.ANY_WHITE_LINES = Some [(re.Chr newline, re.Plus)].
Proof. reflexivity. Qed.

Lemma greedy_total ok next s :
  (forall t, is_Some (next t)) -> is_Some (re.greedy ok next s).
Proof.
  intros Hnext. induction s as [|c s IH]; simpl; [done|].
  destruct (ok c); [|done]. by destruct IH as [m ->].
Qed.

(** A run of line breaks is matched where it starts, and nowhere else. *)
Lemma white_lines_at_newline s :
  exists m,
    re.match_at [(re.Chr newline, re.Plus)] false false (newline :: s)
    = Some (newline :: m).
Proof.
  unfold re.match_at. cbn [re.match_items re.atom_matches].
  rewrite Ascii.eqb_refl.
  match goal with
  | |- context [re.greedy ?ok ?next s] =>
      destruct (greedy_total ok next s) as [m Hm]; [by eexists|]
  end.
  exists m. by rewrite Hm.
Qed.

Lemma white_lines_elsewhere c s :
  c <> newline ->
  re.match_at [(re.Chr newline, re.Plus)] false false (c :: s) = None.
Proof.
  intros Hc. unfold re.match_at. cbn [re.match_items re.atom_matches].
  by apply Ascii.eqb_neq in Hc as ->.
Qed.

Lemma white_lines_at_end :
  re.match_at [(re.Chr newline, re.Plus)] false false [] = None.
Proof. reflexivity. Qed.

Lemma substitute_white_lines_no_newline repl skip s :
  newline ∉ repl ->
  newline ∉ re.substitute repl
              (re.pieces [(re.Chr newline, re.Plus)] false skip s).
Proof.
  intros Hrepl. revert skip. induction s as [|c s IH]; intros skip.
  - destruct skip; simpl; apply not_elem_of_nil.
  - destruct skip as [|k]; [|apply IH].
    cbn [re.pieces]. destruct (decide (c = newline)) as [->|Hc].
    + destruct (white_lines_at_newline s) as [m ->].
      cbn [re.substitute flat_map]. apply not_elem_of_app. split; [done|apply IH].
    + rewrite (white_lines_elsewhere _ _ Hc).
      cbn [re.substitute flat_map app]. apply not_elem_of_cons. split; [done|apply IH].
Qed.

Lemma pieces_white_lines_without_newline s :
  newline ∉ s ->
  re.pieces [(re.Chr newline, re.Plus)] false 0 s = map re.Gap s.
Proof.
  induction s as [|c s IH]; [done|].
  intros [Hc Hs]%not_elem_of_cons. cbn [re.pieces].
  rewrite (white_lines_elsewhere _ _ (not_eq_sym Hc)). simpl. by rewrite IH.
Qed.

Lemma substitute_gaps repl s : re.substitute repl (map re.Gap s) = s.
Proof. induction s as [|c s IH]; simpl; [done|]. by rewrite IH. Qed.

Lemma convert_line_breaks_to_html_eq s :
  convert_line_breaks_to_html s =
  Ok (re.substitute Html.DOUBLE_LINE_BREAK
        (re.pieces [(re.Chr newline, re.Plus)] false 0 s)).
Proof. reflexivity. Qed.

Lemma DOUBLE_LINE_BREAK_no_newline : newline ∉ Html.DOUBLE_LINE_BREAK.
Proof. intros H. apply list_elem_of_In in H. simpl in H. intuition discriminate. Qed.

(** C10. The normalised body holds no line break: whatever the input, the
    transform returns a text in which the line-feed character does not
    occur. *)
Theorem convert_line_breaks_to_html_no_newline (s : text) :
  exists t, convert_line_breaks_to_html s = Ok t /\ newline ∉ t.
Proof.
  eexists. split; [apply convert_line_breaks_to_html_eq|].
  apply substitute_white_lines_no_newline, DOUBLE_LINE_BREAK_no_newline.
Qed.

(** C6. Normalising twice is normalising once: the transform always returns,
    and on its own result it returns that result unchanged. *)
Theorem convert_line_breaks_to_html_idempotent (s : text) :
  exists t,
    convert_line_breaks_to_html s = Ok t
    /\ convert_line_breaks_to_html t = Ok t
    /\ (convert_line_breaks_to_html s ≫= convert_line_breaks_to_html)
       = convert_line_breaks_to_html s.
Proof.
  assert (newline ∉ re.substitute Html.DOUBLE_LINE_BREAK
                      (re.pieces [(re.Chr newline, re.Plus)] false 0 s)) as Hno
    by apply substitute_white_lines_no_newline, DOUBLE_LINE_BREAK_no_newline.
  assert (forall t, newline ∉ t -> convert_line_breaks_to_html t = Ok t) as Hid.
  { intros t Ht. rewrite convert_line_breaks_to_html_eq.
    by rewrite (pieces_white_lines_without_newline _ Ht), substitute_gaps. }
  eexists. split; [apply convert_line_breaks_to_html_eq|].
  split; [by apply Hid|].
  rewrite (convert_line_breaks_to_html_eq s). cbn [mbind outcome_bind obind].
  by apply Hid.
Qed.

(** ** Splitting the home address *)

Lemma break_at_first sep a b :
  sep ∉ a -> py.break_at sep (a ++ sep :: b) = Some (a, b).
Proof.
  induction a as [|c a IH]; simpl.
  - intros _. by rewrite Ascii.eqb_refl.
  - intros [Hc Ha]%not_elem_of_cons.
    apply not_eq_sym, Ascii.eqb_neq in Hc as ->. by rewrite IH.
Qed.

Lemma rsplit_two_segments sep base segment :
  sep ∉ segment ->
  py.rsplit sep 2 (base ++ sep :: segment ++ [sep]) = [base; segment; []].
Proof.
  intros Hseg. unfold py.rsplit.
  assert (rev (base ++ sep :: segment ++ [sep])
          = [] ++ sep :: rev segment ++ sep :: rev base) as ->.
  { rewrite rev_app_distr. simpl. rewrite rev_app_distr. simpl.
    by rewrite <- !app_assoc. }
  cbn [py.split]. rewrite break_at_first by apply not_elem_of_nil.
  rewrite break_at_first.
  - cbn [py.split map rev app]. by rewrite !rev_involutive.
  - intros Hin. by apply Hseg, list_elem_of_In, in_rev, list_elem_of_In.
Qed.

(** C8. A home address made of a base address, a slash, one path segment
    and a closing slash is split into the base address and that segment. *)
Theorem split_home_url_base_and_slug (base slug : text) :
  "/" ∉ slug ->
  _split_home_url (base ++ str "/" ++ slug ++ str "/") = Ok (base, slug).
Proof.
  intros Hslug. unfold _split_home_url.
  change (base ++ str "/" ++ slug ++ str "/") with (base ++ "/" :: slug ++ ["/"]).
  by rewrite rsplit_two_segments.
Qed.

Lemma split_home_url_base_and_slug_witness :
  _split_home_url (str "https://www.novelabook.link/mi-esposo-es-un-billonario/")
  = Ok (str "https://www.novelabook.link", str "mi-esposo-es-un-billonario").
Proof.
  apply (split_home_url_base_and_slug (str "https://www.novelabook.link")
           (str "mi-esposo-es-un-billonario")).
  intros H. apply list_elem_of_In in H. vm_compute in H. intuition discriminate.
Defined.

(** ** Decimal numerals and padding *)

Lemma digits_of_fuel f1 f2 n :
  n < f1 -> n < f2 -> py.digits_of f1 n = py.digits_of f2 n.
Proof.
  revert f2 n. induction f1 as [|f1 IH]; intros f2 n H1 H2; [lia|].
  destruct f2 as [|f2]; [lia|]. cbn [py.digits_of].
  destruct (Nat.ltb_spec n 10) as [Hn|Hn]; [done|].
  f_equal. apply IH.
  - assert (n / 10 < n) by (apply Nat.div_lt; lia). lia.
  - assert (n / 10 < n) by (apply Nat.div_lt; lia). lia.
Qed.

Lemma str_nat_eq n :
  py.str_nat n =
  (if (n <? 10)%nat then [] else py.str_nat (n / 10))
    ++ [py.digit_char (n mod 10)].
Proof.
  unfold py.str_nat at 1. cbn [py.digits_of].
  destruct (Nat.ltb_spec n 10) as [Hn|Hn]; [done|].
  f_equal. apply digits_of_fuel.
  - assert (n / 10 < n) by (apply Nat.div_lt; lia). lia.
  - lia.
Qed.

Lemma length_str_nat_pos n : 1 <= length (py.str_nat n).
Proof. rewrite str_nat_eq, length_app. cbn [length]. lia. Qed.

Lemma length_str_nat_mono n m :
  n <= m -> length (py.str_nat n) <= length (py.str_nat m).
Proof.
  revert n. induction m as [m IH] using lt_wf_ind. intros n Hnm.
  rewrite (str_nat_eq n), (str_nat_eq m), !length_app. cbn [length].
  destruct (Nat.ltb_spec n 10) as [Hn|Hn]; [cbn [length]; lia|].
  destruct (Nat.ltb_spec m 10) as [Hm|Hm]; [lia|].
  assert (m / 10 < m) by (apply Nat.div_lt; lia).
  assert (n / 10 <= m / 10) by (apply Nat.Div0.div_le_mono; lia).
  specialize (IH (m / 10) ltac:(lia) (n / 10) ltac:(lia)). lia.
Qed.

Lemma digit_char_spec d :
  d < 10 ->
  re.is_digit (py.digit_char d) = true /\ py.digit_value (py.digit_char d) = d.
Proof.
  intros Hd. do 10 (destruct d as [|d]; [by split|]). lia.
Qed.

Lemma str_nat_digits n : Forall (fun c => re.is_digit c = true) (py.str_nat n).
Proof.
  induction n as [n IH] using lt_wf_ind. rewrite str_nat_eq.
  apply Forall_app. split.
  - destruct (Nat.ltb_spec n 10) as [Hn|Hn]; [constructor|].
    apply IH, Nat.div_lt; lia.
  - constructor; [|constructor]. apply digit_char_spec, Nat.mod_upper_bound. lia.
Qed.

Lemma decimal_value_snoc s c :
  py.decimal_value (s ++ [c]) = 10 * py.decimal_value s + py.digit_value c.
Proof. unfold py.decimal_value. by rewrite fold_left_app. Qed.

Lemma decimal_value_str_nat n : py.decimal_value (py.str_nat n) = n.
Proof.
  induction n as [n IH] using lt_wf_ind.
  rewrite str_nat_eq, decimal_value_snoc.
  rewrite (proj2 (digit_char_spec (n mod 10) ltac:(apply Nat.mod_upper_bound; lia))).
  destruct (Nat.ltb_spec n 10) as [Hn|Hn].
  - rewrite Nat.mod_small by done. reflexivity.
  - rewrite IH by (apply Nat.div_lt; lia).
    pose proof (Nat.div_mod_eq n 10). lia.
Qed.

Lemma decimal_value_zeros k s :
  py.decimal_value (repeat "0" k ++ s) = py.decimal_value s.
Proof.
  unfold py.decimal_value. rewrite fold_left_app.
  assert (fold_left (fun acc c => 10 * acc + py.digit_value c) (repeat "0" k) 0 = 0)
    as ->; [|done].
  induction k as [|k IH]; [done|]. simpl. exact IH.
Qed.

Lemma digit_not_sign c :
  re.is_digit c = true -> Ascii.eqb c "+" || Ascii.eqb c "-" = false.
Proof.
  intros Hc. destruct (Ascii.eqb_spec c "+") as [->|_]; [discriminate Hc|].
  by destruct (Ascii.eqb_spec c "-") as [->|_]; [discriminate Hc|].
Qed.

Lemma zfill_str_nat n width :
  py.zfill (py.str_nat n) width =
  repeat "0" (Z.to_nat (width - Z.of_nat (length (py.str_nat n)))) ++ py.str_nat n.
Proof.
  unfold py.zfill. pose proof (str_nat_digits n) as Hd.
  pose proof (length_str_nat_pos n) as Hlen.
  destruct (py.str_nat n) as [|c s]; [simpl in Hlen; lia|].
  apply Forall_cons in Hd as [Hc _]. by rewrite (digit_not_sign _ Hc).
Qed.

Lemma pad_number_succ k width :
  _pad_number (Z.of_nat k + 1) (Z.of_nat width) =
  repeat "0" (width - length (py.str_nat (S k))) ++ py.str_nat (S k).
Proof.
  unfold _pad_number, py.str_int.
  destruct (Z.ltb_spec (Z.of_nat k + 1) 0) as [Hneg|_]; [lia|].
  replace (Z.to_nat (Z.of_nat k + 1)) with (S k) by lia.
  rewrite zfill_str_nat. do 2 f_equal. lia.
Qed.

Lemma str_int_of_nat n : py.str_int (Z.of_nat n) = py.str_nat n.
Proof.
  unfold py.str_int. destruct (Z.ltb_spec (Z.of_nat n) 0) as [Hneg|_]; [lia|].
  by rewrite Nat2Z.id.
Qed.

Lemma sequence_strings_lookup total k :
  k < total ->
  sequence_strings total !! k =
  Some (repeat "0" (length (py.str_nat total) - length (py.str_nat (S k)))
          ++ py.str_nat (S k)).
Proof.
  intros Hk. unfold sequence_strings.
  rewrite list_lookup_fmap, lookup_seq_lt by done. simpl.
  by rewrite str_int_of_nat, pad_number_succ.
Qed.

Lemma sequence_strings_int total k padded :
  sequence_strings total !! k = Some padded ->
  py.int padded = Ok (Z.of_nat (S k))
  /\ length padded = length (py.str_nat total).
Proof.
  intros Hlook.
  assert (k < total) as Hk.
  { apply lookup_lt_Some in Hlook. unfold sequence_strings in Hlook.
    by rewrite length_map, length_seq in Hlook. }
  rewrite (sequence_strings_lookup _ _ Hk) in Hlook. injection Hlook as <-.
  pose proof (length_str_nat_mono (S k) total ltac:(lia)) as Hmono.
  pose proof (length_str_nat_pos (S k)) as Hpos.
  split.
  - rewrite int_digits.
    + by rewrite decimal_value_zeros, decimal_value_str_nat.
    + destruct (py.str_nat (S k)); [simpl in Hpos; lia|].
      by destruct (repeat _ _).
    + apply Forall_app. split; [|apply str_nat_digits].
      apply Forall_forall. by intros c ->%list_elem_of_In%repeat_spec.
  - rewrite length_app, repeat_length. lia.
Qed.

(** ** Numbering the chapters *)

Section Numbering.

Context {collaborators : Collaborators}.

Lemma download_all_chapters_loop_for_each numbered pad_length chapters_dir
  chapter_htmls w :
  download_all_chapters_loop numbered pad_length chapters_dir chapter_htmls w =
  (rest ← for_each
            (fun '(chapter_number, chapter_url) =>
               download_chapter chapter_url chapters_dir
                 (_pad_number (Z.of_nat chapter_number + 1) pad_length))
            numbered;
   ret (chapter_htmls ++ rest)) w.
Proof.
  revert chapter_htmls w.
  induction numbered as [|[chapter_number chapter_url] rest IH];
    intros chapter_htmls w.
  - cbn [download_all_chapters_loop for_each]. unfold mbind, M_bind, bind, ret.
    by rewrite app_nil_r.
  - cbn [download_all_chapters_loop for_each].
    unfold mbind, M_bind, bind.
    destruct (download_chapter _ _ _ w) as [w1 [chapter_html|e|]]; [|done|done].
    rewrite IH. unfold mbind, M_bind, bind.
    destruct (for_each _ rest w1) as [w2 [htmls|e|]]; [|done|done].
    unfold ret. by rewrite <- app_assoc.
Qed.

Lemma for_each_combine_map {A B C D} (g : A -> B) (f : B * C -> M D)
  (xs : list A) (ys : list C) w :
  for_each f (combine (map g xs) ys) w =
  for_each (fun '(x, y) => f (g x, y)) (combine xs ys) w.
Proof.
  revert ys w. induction xs as [|x xs IH]; intros [|y ys] w; try done.
  cbn [map combine for_each]. unfold mbind, M_bind, bind.
  destruct (f (g x, y) w) as [w1 [d|e|]]; [|done|done].
  by rewrite IH.
Qed.

(** C2. In a run over [T] chapters the loop calls [download_chapter] once per
    locator, in locator order, with the sequence strings; the [k]-th of them
    (from 0) is the decimal numeral of [k + 1] with zeros in front up to the
    width of the numeral of [T]; all have that width, they read back as
    1, ..., T in this order, and no two are equal.  Position 7 of 120 is
    [007]. *)
Theorem chapter_numbering (chapter_urls : list text) (chapters_dir : text) :
  let total := length chapter_urls in
  let width := length (py.str_int (Z.of_nat total)) in
  (forall w,
      download_all_chapters chapter_urls chapters_dir w =
      for_each (fun '(padded_chapter_number, chapter_url) =>
                  download_chapter chapter_url chapters_dir padded_chapter_number)
               (combine (sequence_strings total) chapter_urls) w)
  /\ length (sequence_strings total) = total
  /\ (forall k, k < total ->
        sequence_strings total !! k =
        Some (repeat "0" (width - length (py.str_int (Z.of_nat (S k))))
                ++ py.str_int (Z.of_nat (S k))))
  /\ Forall (fun padded => length padded = width) (sequence_strings total)
  /\ map py.int (sequence_strings total)
     = map (fun n => Ok (Z.of_nat n)) (seq 1 total)
  /\ NoDup (sequence_strings total)
  /\ _pad_number 7 (Z.of_nat (length (py.str_int 120))) = str "007".
Proof.
  intros total width. subst width. rewrite str_int_of_nat.
  split; [|split; [|split; [|split; [|split; [|split]]]]].
  - intros w. unfold download_all_chapters.
    rewrite download_all_chapters_loop_for_each.
    unfold sequence_strings. rewrite for_each_combine_map.
    unfold py.enumerate. fold total. rewrite str_int_of_nat.
    unfold mbind, M_bind, bind.
    by destruct (for_each _ _ w) as [w1 [htmls|e|]].
  - unfold sequence_strings. by rewrite length_map, length_seq.
  - intros k Hk. rewrite str_int_of_nat. by apply sequence_strings_lookup.
  - apply Forall_forall. intros padded [k Hk]%list_elem_of_lookup.
    by apply sequence_strings_int in Hk as [_ ?].
  - apply list_eq. intros k. rewrite !list_lookup_fmap.
    destruct (sequence_strings total !! k) as [padded|] eqn:Hlook.
    + pose proof (lookup_lt_Some _ _ _ Hlook) as Hk.
      unfold sequence_strings in Hk. rewrite length_map, length_seq in Hk.
      rewrite lookup_seq_lt by done. simpl.
      by apply sequence_strings_int in Hlook as [-> _].
    + apply lookup_ge_None in Hlook.
      unfold sequence_strings in Hlook. rewrite length_map, length_seq in Hlook.
      by rewrite lookup_seq_ge.
  - apply NoDup_alt. intros i j padded Hi Hj.
    apply sequence_strings_int in Hi as [Hi _].
    apply sequence_strings_int in Hj as [Hj _].
    rewrite Hi in Hj. injection Hj. lia.
  - reflexivity.
Qed.

End Numbering.

Lemma chapter_numbering_witness :
  sequence_strings 12 !! 6 = Some (str "07").
Proof.
  refine (proj1 (proj2 (proj2
            (chapter_numbering (collaborators := demo.site)
               (repeat (str "http://h/demo-1.html") 12) (str "chapters"))))
            6 _).
  simpl. lia.
Defined.

(** ** Discovery: the pages in order, each without its first six matches *)

Section Discovery.

Context {collaborators : Collaborators}.

Lemma extract_chapter_urls_loop_concat page_numbers home_url chapter_urls
  (per_page : list (list text)) :
  Forall2 (fun page_number in_page =>
             extract_chapter_urls_step page_number home_url = Ok in_page)
          page_numbers per_page ->
  extract_chapter_urls_loop page_numbers home_url chapter_urls
  = Ok (chapter_urls ++ concat per_page).
Proof.
  intros Hall. revert chapter_urls.
  induction Hall as [|page_number in_page page_numbers per_page Hpage _ IH];
    intros chapter_urls; cbn [extract_chapter_urls_loop concat].
  - by rewrite app_nil_r.
  - rewrite Hpage. cbn [mbind outcome_bind obind]. by rewrite IH, app_assoc.
Qed.

Lemma length_concat_sum {A} (ls : list (list A)) :
  length (concat ls) = sum_list (map length ls).
Proof.
  induction ls as [|l ls IH]; [done|]. cbn [concat map sum_list_with sum_list].
  rewrite length_app, IH. reflexivity.
Qed.

Lemma pages_from start home_url (contents : list text) (parsed : list (list text)) :
  (forall i content,
      contents !! i = Some content ->
      session_get
        (home_url ++ str "?page=" ++ py.str_int (1 + Z.of_nat (start + i)))
      = Ok content) ->
  Forall2 (fun content urls => parse_chapter_urls content home_url = Ok urls)
          contents parsed ->
  Forall2 (fun page_number in_page =>
             extract_chapter_urls_step page_number home_url = Ok in_page)
          (map (fun k => (1 + Z.of_nat k)%Z) (seq start (length contents)))
          (map (skipn 6) parsed).
Proof.
  intros Hget Hparse. revert start Hget.
  induction Hparse as [|content urls contents parsed Hp _ IH]; intros start Hget.
  - constructor.
  - cbn [length seq map]. constructor.
    + unfold extract_chapter_urls_step.
      specialize (Hget 0 content eq_refl). rewrite Nat.add_0_r in Hget.
      rewrite Hget. cbn [mbind outcome_bind obind]. by rewrite Hp.
    + apply IH. intros i c Hi. specialize (Hget (S i) c Hi).
      by replace (S start + i) with (start + S i) by lia.
Qed.

(** C1. When the listing pages 1, ..., P are retrieved and parsed, the
    discovery loop returns the locators of page 1, then those of page 2, and
    so on, each page in the order of the parse and without its first six
    matches; the length is the sum of the lengths per page. *)
Theorem discovery_concatenates_pages (chapter_pager_last : Z) (home_url : text)
  (contents : list text) (parsed : list (list text)) :
  Z.of_nat (length contents) = chapter_pager_last ->
  (forall i content,
      contents !! i = Some content ->
      session_get (home_url ++ str "?page=" ++ py.str_int (1 + Z.of_nat i))
      = Ok content) ->
  Forall2 (fun content urls => parse_chapter_urls content home_url = Ok urls)
          contents parsed ->
  extract_chapter_urls chapter_pager_last home_url
  = Ok (concat (map (skipn 6) parsed))
  /\ length (concat (map (skipn 6) parsed))
     = sum_list (map (fun urls => length urls - 6) parsed).
Proof.
  intros Hlast Hget Hparse. split.
  - unfold extract_chapter_urls, py.range.
    replace (Z.to_nat (chapter_pager_last + 1 - 1)) with (length contents) by lia.
    apply (extract_chapter_urls_loop_concat _ _ []).
    by apply pages_from.
  - rewrite length_concat_sum, map_map. f_equal.
    apply map_ext. intros urls. apply length_skipn.
Qed.

End Discovery.

Lemma discovery_concatenates_pages_witness :
  extract_chapter_urls (collaborators := demo.site) 2 demo.home_url
  = Ok [str "http://h/demo-1.html"; str "http://h/demo-2.html";
        str "http://h/demo-3.html"].
Proof.
  apply (discovery_concatenates_pages (collaborators := demo.site)
           2 demo.home_url
           [demo.page_1; demo.page_2]
           [map (fun n => str "http://h/demo-" ++ py.str_int n ++ str ".html")
                (demo.decoys ++ [1; 2]%Z);
            map (fun n => str "http://h/demo-" ++ py.str_int n ++ str ".html")
                (demo.decoys ++ [3]%Z)]).
  - reflexivity.
  - intros [|[|i]] content Hi; try discriminate Hi; injection Hi as <-;
      vm_compute; reflexivity.
  - repeat constructor.
Defined.

(** ** One listing page *)

Section ListingPage.

Context {collaborators : Collaborators}.

(** C4. On a listing page whose matches are six decoys followed by the real
    entries, the step of the loop returns the real entries, in the order of
    the matches, each with the base address in front; when the page has
    fewer than six matches the step returns the empty list.  The order of
    the matches is the order of the document: they are the hits of a scan
    whose pieces, put back together, are the page. *)
Theorem listing_page_drops_decoys (page_number : Z)
  (home_url base_domain novel_title page_content : text) (matches : list text) :
  _split_home_url home_url = Ok (base_domain, novel_title) ->
  session_get (home_url ++ str "?page=" ++ py.str_int page_number)
  = Ok page_content ->
  re.findall
    (str "/" ++ novel_title ++ str "-" ++ RegEx.ANY_NUMBERS ++ str ".html")
    page_content true
  = Ok matches ->
  (forall decoys reals,
      matches = decoys ++ reals -> length decoys = 6 ->
      extract_chapter_urls_step page_number home_url
      = Ok (map (fun rp => base_domain ++ rp) reals))
  /\ (length matches < 6 ->
      extract_chapter_urls_step page_number home_url = Ok [])
  /\ (exists scan, matches = re.hits scan /\ re.restore scan = page_content).
Proof.
  intros Hsplit Hget Hfind.
  assert (exists scan, matches = re.hits scan /\ re.restore scan = page_content)
    as Horder.
  { unfold re.findall, re.with_pattern in Hfind.
    destruct (re.compile _) as [pattern|]; [|done]. injection Hfind as <-.
    eexists. split; [reflexivity|]. apply (pieces_restore _ _ 0). lia. }
  assert (extract_chapter_urls_step page_number home_url
          = Ok (skipn 6 (map (fun rp => base_domain ++ rp) matches))) as ->.
  { unfold extract_chapter_urls_step. rewrite Hget. cbn [mbind outcome_bind obind].
    unfold parse_chapter_urls. rewrite Hsplit. cbn [mbind outcome_bind obind].
    by rewrite Hfind. }
  split; [|split; [|exact Horder]].
  - intros decoys reals -> Hlen. f_equal.
    rewrite map_app, skipn_app, length_map, Hlen, Nat.sub_diag.
    rewrite skipn_all2 by (rewrite length_map; lia). reflexivity.
  - intros Hlen. f_equal. apply skipn_all2. rewrite length_map. lia.
Qed.

End ListingPage.

Lemma listing_page_drops_decoys_witness :
  extract_chapter_urls_step (collaborators := demo.site) 1 demo.home_url
  = Ok [str "http://h/demo-1.html"; str "http://h/demo-2.html"]
  /\ extract_chapter_urls_step (collaborators := demo.site) 2 demo.home_url
     = Ok [str "http://h/demo-3.html"]
  /\ extract_chapter_urls_step (collaborators := demo.site) 3 demo.home_url = Ok [].
Proof.
  split; [|split].
  - refine (proj1 (listing_page_drops_decoys (collaborators := demo.site)
                     1 demo.home_url (str "http://h") (str "demo") demo.page_1
                     (map (fun n => str "/demo-" ++ py.str_int n ++ str ".html")
                          (demo.decoys ++ [1; 2]%Z))
                     eq_refl eq_refl eq_refl)
                  (map (fun n => str "/demo-" ++ py.str_int n ++ str ".html")
                       demo.decoys)
                  [str "/demo-1.html"; str "/demo-2.html"] eq_refl eq_refl).
  - refine (proj1 (listing_page_drops_decoys (collaborators := demo.site)
                     2 demo.home_url (str "http://h") (str "demo") demo.page_2
                     (map (fun n => str "/demo-" ++ py.str_int n ++ str ".html")
                          (demo.decoys ++ [3]%Z))
                     eq_refl eq_refl eq_refl)
                  (map (fun n => str "/demo-" ++ py.str_int n ++ str ".html")
                       demo.decoys)
                  [str "/demo-3.html"] eq_refl eq_refl).
  - refine (proj1 (proj2 (listing_page_drops_decoys (collaborators := demo.site)
                     3 demo.home_url (str "http://h") (str "demo") demo.page_3
                     [str "/demo-4.html"; str "/demo-5.html"]
                     eq_refl eq_refl eq_refl)) _).
    simpl. lia.
Defined.


(** ** Where the code leaves its own documentation *)

(** C5. The pattern of [parse_chapter_urls] ends in [.html] with the dot
    unescaped, so any character is accepted in its place: from a link to
    [/demo-7/html/index] the function returns the locator
    [http://h/demo-7/html], which is not the base address followed by
    [/demo-], digits and [.html]. *)
Theorem parse_chapter_urls_unescaped_dot :
  parse_chapter_urls (demo.link (str "/demo-7/html/index") (str "Index"))
    demo.home_url
  = Ok [str "http://h/demo-7/html"]
  /\ ~ (exists rel_path,
          str "http://h/demo-7/html" = str "http://h" ++ rel_path
          /\ chapter_rel_path (str "demo") rel_path).
Proof.
  split; [reflexivity|].
  intros (rel_path & Heq & digits & _ & _ & ->).
  cbn [str list_ascii_of_string app] in Heq.
  injection Heq as Heq.
  assert (length digits = 1) as Hlen.
  { apply (f_equal length) in Heq. rewrite length_app in Heq.
    cbn [length] in Heq. lia. }
  destruct digits as [|d [|d' digits]]; try discriminate Hlen.
  discriminate Heq.
Qed.

(** C3. The pager starts its match at the first page attribute that has the
    label somewhere later on its line: with the link to page 2 in front of
    the link labelled Final, whose page attribute is 9, it returns 2. *)
Theorem pager_reads_first_page_attribute :
  let anchor_markup :=
    demo.pager_link 2 (str "2") ++ demo.pager_link 9 (str "Final") in
  let w := demo.world_with_home anchor_markup in
  read_file FilePath.HOME_PAGE w = (w, Ok anchor_markup)
  /\ get_total_pages_in_chapter_pager w = (w, Ok 2%Z)
  /\ get_total_pages_in_chapter_pager
       (demo.world_with_home (demo.pager_link 9 (str "Final")))
     = (demo.world_with_home (demo.pager_link 9 (str "Final")), Ok 9%Z).
Proof.
  intros anchor_markup w. split; [|split].
  - vm_compute. reflexivity.
  - rewrite (get_total_pages_in_chapter_pager_read w anchor_markup)
      by (vm_compute; reflexivity).
    vm_compute. reflexivity.
  - rewrite (get_total_pages_in_chapter_pager_read _
               (demo.pager_link 9 (str "Final")))
      by (vm_compute; reflexivity).
    vm_compute. reflexivity.
Qed.

(** ** Assembling the collection *)

Section Assembly.

Context {collaborators : Collaborators}.

Lemma assemble_collection_run chapter_htmls novel_title novel_dir w :
  assemble_collection chapter_htmls novel_title novel_dir w =
  match files w !! FilePath.NOVEL_TEMPLATE with
  | None => (w, Raise FileNotFoundError)
  | Some source =>
      match template_render (py.universal_newlines source)
              [(str "chapter_htmls", VList chapter_htmls)] with
      | Ok novel_html =>
          let novel_path := novel_dir ++ str "/" ++ novel_title ++ str ".html" in
          ({| files := <[novel_path := novel_html]> (files w);
              driver_url := driver_url w |},
           Ok (novel_html, novel_path))
      | Raise e => (w, Raise e)
      | Unmodelled => (w, Unmodelled)
      end
  end.
Proof.
  unfold assemble_collection, render_novel_template, save_novel, text_to_file,
    write_file, read_file, lift, mbind, M_bind, bind, ret.
  destruct (files w !! FilePath.NOVEL_TEMPLATE) as [source|]; [|done].
  by destruct (template_render _ _).
Qed.

(** C9. Two calls of the assembly on the same ordered chapter list, in two
    worlds where the template reads the same, return the same result: the
    same aggregate text at the same location, and that text is what the file
    at the location holds after either call. *)
Theorem aggregation_deterministic (chapter_htmls : list text)
  (novel_title novel_dir : text) (w1 w2 : World) :
  files w1 !! FilePath.NOVEL_TEMPLATE = files w2 !! FilePath.NOVEL_TEMPLATE ->
  snd (assemble_collection chapter_htmls novel_title novel_dir w1)
  = snd (assemble_collection chapter_htmls novel_title novel_dir w2)
  /\ forall novel_html novel_path,
       snd (assemble_collection chapter_htmls novel_title novel_dir w1)
       = Ok (novel_html, novel_path) ->
       files (fst (assemble_collection chapter_htmls novel_title novel_dir w1))
         !! novel_path = Some novel_html
       /\ files (fst (assemble_collection chapter_htmls novel_title novel_dir w2))
            !! novel_path = Some novel_html.
Proof.
  intros Hsame. rewrite !assemble_collection_run, <- Hsame.
  destruct (files w1 !! FilePath.NOVEL_TEMPLATE) as [source|]; [|by split].
  destruct (template_render _ _) as [novel_html|e|]; [|by split|by split].
  split; [done|]. cbn [fst snd files]. intros ? ? [= <- <-].
  by rewrite !lookup_insert_eq.
Qed.

(** A run that saves the aggregate where [main] puts it leaves the template
    as it was, so the next run reads the same template. *)
Lemma assemble_collection_keeps_template chapter_htmls novel_title w :
  files (fst (assemble_collection chapter_htmls novel_title
                (get_novel_dir novel_title) w))
    !! FilePath.NOVEL_TEMPLATE
  = files w !! FilePath.NOVEL_TEMPLATE.
Proof.
  rewrite assemble_collection_run.
  destruct (files w !! FilePath.NOVEL_TEMPLATE) as [source|] eqn:Hsource;
    [|done].
  destruct (template_render _ _) as [novel_html|e|]; [|done|done].
  cbn [fst files]. by rewrite lookup_insert_ne.
Qed.

End Assembly.

Lemma aggregation_deterministic_witness :
  let first_run :=
    assemble_collection (collaborators := demo.site)
      [str "<p>1</p>"; str "<p>2</p>"]
      (str "demo") (get_novel_dir (str "demo")) demo.world in
  let second_run :=
    assemble_collection (collaborators := demo.site)
      [str "<p>1</p>"; str "<p>2</p>"]
      (str "demo") (get_novel_dir (str "demo")) (fst first_run) in
  snd first_run = snd second_run
  /\ files (fst second_run) !! str "output/demo/demo.html"
     = Some (str "<h1>novel</h1><p>1</p><p>2</p>").
Proof.
  intros first_run second_run.
  pose proof (aggregation_deterministic (collaborators := demo.site)
                [str "<p>1</p>"; str "<p>2</p>"]
                (str "demo") (get_novel_dir (str "demo"))
                demo.world (fst first_run)
                ltac:(vm_compute; reflexivity)) as [Hsame Hfile].
  split; [exact Hsame|].
  exact (proj2 (Hfile (str "<h1>novel</h1><p>1</p><p>2</p>")
                  (str "output/demo/demo.html")
                  ltac:(vm_compute; reflexivity))).
Defined.

(** * Further properties of the module *)

(** ** The home address, in general *)

Lemma break_at_Some sep s a b :
  py.break_at sep s = Some (a, b) -> s = a ++ sep :: b /\ sep ∉ a.
Proof.
  revert a. induction s as [|c s IH]; intros a; simpl; [done|].
  destruct (Ascii.eqb_spec c sep) as [->|Hc].
  - intros [= <- <-]. split; [done|apply not_elem_of_nil].
  - destruct (py.break_at sep s) as [[a' b']|]; [|done].
    intros [= <- <-]. destruct (IH a' eq_refl) as [-> Ha].
    split; [done|]. apply not_elem_of_cons. by split; [apply not_eq_sym|].
Qed.

Lemma break_at_None sep s : py.break_at sep s = None -> sep ∉ s.
Proof.
  induction s as [|c s IH]; simpl; [intros _; apply not_elem_of_nil|].
  destruct (Ascii.eqb_spec c sep) as [->|Hc]; [done|].
  destruct (py.break_at sep s) as [[a b]|]; [done|].
  intros _. apply not_elem_of_cons. split; [by apply not_eq_sym|by apply IH].
Qed.

Lemma not_elem_of_rev (c : ascii) (s : text) : c ∉ s -> c ∉ rev s.
Proof. intros Hs Hin. by apply Hs, list_elem_of_In, in_rev, list_elem_of_In. Qed.

Lemma rsplit_three_segments sep base segment last :
  sep ∉ segment -> sep ∉ last ->
  py.rsplit sep 2 (base ++ sep :: segment ++ sep :: last)
  = [base; segment; last].
Proof.
  intros Hseg Hlast. unfold py.rsplit.
  assert (rev (base ++ sep :: segment ++ sep :: last)
          = rev last ++ sep :: rev segment ++ sep :: rev base) as ->.
  { rewrite rev_app_distr. cbn [rev]. rewrite rev_app_distr. cbn [rev].
    by rewrite <- !app_assoc. }
  cbn [py.split]. rewrite !break_at_first by by apply not_elem_of_rev.
  cbn [map rev app]. by rewrite !rev_involutive.
Qed.

(** The ways [rsplit] with two cuts can come out, read from the right. *)
Lemma rsplit_two_cases sep s :
  ((sep ∉ s) /\ py.rsplit sep 2 s = [s])
  \/ (exists a b, s = a ++ sep :: b /\ (sep ∉ a) /\ (sep ∉ b)
                  /\ py.rsplit sep 2 s = [a; b])
  \/ (exists a b c, s = a ++ sep :: b ++ sep :: c /\ (sep ∉ b) /\ (sep ∉ c)
                    /\ py.rsplit sep 2 s = [a; b; c]).
Proof.
  unfold py.rsplit. cbn [py.split].
  destruct (py.break_at sep (rev s)) as [[c r]|] eqn:Hfirst.
  - apply break_at_Some in Hfirst as [Hs Hc].
    destruct (py.break_at sep r) as [[b a]|] eqn:Hsecond.
    + apply break_at_Some in Hsecond as [-> Hb].
      right. right. exists (rev a), (rev b), (rev c).
      apply (f_equal (@rev ascii)) in Hs. rewrite rev_involutive in Hs.
      subst s. repeat split.
      * rewrite rev_app_distr. cbn [rev]. rewrite rev_app_distr. cbn [rev].
        by rewrite <- !app_assoc.
      * by apply not_elem_of_rev.
      * by apply not_elem_of_rev.
    + apply break_at_None in Hsecond.
      right. left. exists (rev r), (rev c).
      apply (f_equal (@rev ascii)) in Hs. rewrite rev_involutive in Hs.
      subst s. repeat split.
      * rewrite rev_app_distr. cbn [rev]. by rewrite <- !app_assoc.
      * by apply not_elem_of_rev.
      * by apply not_elem_of_rev.
  - apply break_at_None in Hfirst. left. split.
    + apply not_elem_of_rev in Hfirst. by rewrite rev_involutive in Hfirst.
    + cbn [map rev app]. by rewrite rev_involutive.
Qed.

Lemma slashes_app a b : slashes (a ++ b) = slashes a + slashes b.
Proof. unfold slashes. by rewrite List.filter_app, length_app. Qed.

Lemma slashes_none s : "/" ∉ s -> slashes s = 0.
Proof.
  unfold slashes. induction s as [|c s IH]; [done|].
  intros [Hc Hs]%not_elem_of_cons. cbn [List.filter].
  apply not_eq_sym, Ascii.eqb_neq in Hc as ->. by apply IH.
Qed.

(** X1. [_split_home_url] returns a pair exactly on the addresses with at
    least two slashes: the pair is the text before the second slash from
    the right and the slash-free segment between the last two slashes; the
    slash-free text after the last slash is dropped, empty or not. *)
Theorem split_home_url_returns (home_url base_domain novel_title : text) :
  _split_home_url home_url = Ok (base_domain, novel_title) <->
  exists last,
    home_url = base_domain ++ str "/" ++ novel_title ++ str "/" ++ last
    /\ ("/" ∉ novel_title) /\ ("/" ∉ last).
Proof.
  unfold _split_home_url. split.
  - destruct (rsplit_two_cases "/" home_url)
      as [[_ ->]|[(a & b & _ & _ & _ & ->)|(a & b & c & -> & Hb & Hc & ->)]];
      try discriminate.
    intros [= <- <-]. by exists c.
  - intros (last & -> & Hslug & Hlast).
    change (base_domain ++ str "/" ++ novel_title ++ str "/" ++ last)
      with (base_domain ++ "/" :: novel_title ++ "/" :: last).
    by rewrite rsplit_three_segments.
Qed.

(** X2. [_split_home_url] raises [ValueError], the failed unpacking into
    three names, exactly on the addresses with fewer than two slashes. *)
Theorem split_home_url_raises (home_url : text) :
  _split_home_url home_url = Raise ValueError <-> slashes home_url < 2.
Proof.
  unfold _split_home_url.
  destruct (rsplit_two_cases "/" home_url)
    as [[Hs ->]|[(a & b & -> & Ha & Hb & ->)|(a & b & c & -> & Hb & Hc & ->)]].
  - rewrite slashes_none by done. split; [lia|done].
  - rewrite slashes_app. change ("/" :: b) with (str "/" ++ b).
    rewrite slashes_app, (slashes_none a), (slashes_none b) by done.
    split; [intros _; cbn; lia|done].
  - rewrite slashes_app.
    change ("/" :: b ++ "/" :: c) with (str "/" ++ b ++ str "/" ++ c).
    rewrite !slashes_app. split; [done|]. cbn. lia.
Qed.

Lemma split_home_url_returns_witness :
  _split_home_url (str "http://h/demo/index.html")
  = Ok (str "http://h", str "demo").
Proof.
  apply (proj2 (split_home_url_returns (str "http://h/demo/index.html")
                  (str "http://h") (str "demo"))).
  exists (str "index.html"). split; [reflexivity|].
  split; intros Hin;
    refine (bool_decide_eq_false_1 _ _ Hin); vm_compute; reflexivity.
Defined.

Lemma split_home_url_raises_witness :
  _split_home_url (str "localhost/demo") = Raise ValueError.
Proof.
  apply (proj2 (split_home_url_raises (str "localhost/demo"))).
  vm_compute. lia.
Defined.

(** ** Padded numbers *)

Lemma zfill_length s width :
  Z.of_nat (length (py.zfill s width)) = Z.max width (Z.of_nat (length s)).
Proof.
  unfold py.zfill. destruct s as [|c s].
  - rewrite repeat_length. cbn [length]. lia.
  - destruct (Ascii.eqb c "+" || Ascii.eqb c "-"); cbn [length];
      rewrite length_app, repeat_length; cbn [length]; lia.
Qed.

Lemma pad_number_nonneg_eq number pad_length :
  (0 <= number)%Z ->
  _pad_number number pad_length =
  repeat "0" (Z.to_nat (pad_length - Z.of_nat (length (py.str_int number))))
    ++ py.str_int number.
Proof.
  intros Hn. unfold _pad_number, py.str_int.
  destruct (Z.ltb_spec number 0) as [Hneg|_]; [lia|]. apply zfill_str_nat.
Qed.

(** X3. Padding loses nothing and cuts nothing: the result of [_pad_number]
    is as long as the larger of the pad length and the numeral, for every
    integer and every pad length, negative ones included; for a number that
    is not negative it is the numeral with zeros in front, and [int] reads
    the number back from it. *)
Theorem pad_number_keeps_number (number pad_length : Z) :
  Z.of_nat (length (_pad_number number pad_length))
  = Z.max pad_length (Z.of_nat (length (py.str_int number)))
  /\ ((0 <= number)%Z ->
      (exists zeros, _pad_number number pad_length
                     = repeat "0" zeros ++ py.str_int number)
      /\ py.int (_pad_number number pad_length) = Ok number).
Proof.
  split; [apply zfill_length|]. intros Hn.
  rewrite pad_number_nonneg_eq by done. split; [by eexists|].
  unfold py.str_int. destruct (Z.ltb_spec number 0) as [Hneg|_]; [lia|].
  pose proof (length_str_nat_pos (Z.to_nat number)) as Hpos.
  rewrite int_digits.
  - rewrite decimal_value_zeros, decimal_value_str_nat. f_equal. lia.
  - destruct (py.str_nat (Z.to_nat number)); [simpl in Hpos; lia|].
    by destruct (repeat _ _).
  - apply Forall_app. split; [|apply str_nat_digits].
    apply Forall_forall. by intros c ->%list_elem_of_In%repeat_spec.
Qed.

Lemma pad_number_keeps_number_witness :
  py.int (_pad_number 42 5) = Ok 42%Z /\ _pad_number 42 1 = str "42".
Proof.
  split.
  - apply (proj2 (pad_number_keeps_number 42 5)). lia.
  - reflexivity.
Defined.

(** *** The sequence strings sort in chapter order *)

Lemma decimal_value_cons c s :
  py.decimal_value (c :: s)
  = py.digit_value c * 10 ^ length s + py.decimal_value s.
Proof.
  unfold py.decimal_value. cbn [fold_left].
  replace (10 * 0 + py.digit_value c) with (py.digit_value c) by lia.
  generalize (py.digit_value c) as acc. induction s as [|d s IH]; intros acc.
  - cbn. lia.
  - cbn [fold_left length]. rewrite IH, (IH (10 * 0 + py.digit_value d)).
    rewrite Nat.pow_succ_r'. lia.
Qed.

Lemma digit_value_bound c : re.is_digit c = true -> py.digit_value c < 10.
Proof.
  unfold re.is_digit, py.digit_value. intros [H1 H2]%andb_prop.
  apply Nat.leb_le in H1, H2. lia.
Qed.

Lemma decimal_value_bound s :
  Forall (fun c => re.is_digit c = true) s ->
  py.decimal_value s < 10 ^ length s.
Proof.
  induction 1 as [|c s Hc _ IH]; [cbn; lia|].
  rewrite decimal_value_cons. cbn [length]. rewrite Nat.pow_succ_r'.
  apply digit_value_bound in Hc. nia.
Qed.

Lemma digit_value_order a b :
  re.is_digit a = true -> re.is_digit b = true ->
  (py.digit_value a < py.digit_value b <-> nat_of_ascii a < nat_of_ascii b)
  /\ (py.digit_value a = py.digit_value b <-> nat_of_ascii a = nat_of_ascii b).
Proof.
  unfold re.is_digit, py.digit_value.
  intros [H1 H2]%andb_prop [H3 H4]%andb_prop.
  apply Nat.leb_le in H1, H2, H3, H4. lia.
Qed.

Lemma digits_text_lt s t :
  length s = length t ->
  Forall (fun c => re.is_digit c = true) s ->
  Forall (fun c => re.is_digit c = true) t ->
  py.decimal_value s < py.decimal_value t ->
  text_lt s t = true.
Proof.
  intros Hlen Hs. revert t Hlen.
  induction Hs as [|a s Ha Hs IH]; intros [|b t] Hlen Ht Hlt;
    try discriminate Hlen.
  - cbn in Hlt. lia.
  - apply Forall_cons in Ht as [Hb Ht]. injection Hlen as Hlen.
    rewrite !decimal_value_cons, Hlen in Hlt.
    pose proof (decimal_value_bound s Hs) as Bs.
    pose proof (decimal_value_bound t Ht) as Bt. rewrite Hlen in Bs.
    destruct (digit_value_order a b Ha Hb) as [Hless Hsame].
    cbn [text_lt].
    destruct (Nat.ltb_spec (nat_of_ascii a) (nat_of_ascii b)) as [|Hge];
      [done|].
    destruct (Nat.eqb_spec (nat_of_ascii a) (nat_of_ascii b)) as [Heq|Hne].
    + apply Hsame in Heq. cbn. apply IH; [done|done|]. rewrite Heq in Hlt. lia.
    + exfalso.
      assert (py.digit_value b < py.digit_value a) as Hba.
      { destruct (digit_value_order b a Hb Ha) as [Hless' _].
        apply Hless'. lia. }
      nia.
Qed.

Lemma sequence_strings_digits total k padded :
  sequence_strings total !! k = Some padded ->
  Forall (fun c => re.is_digit c = true) padded
  /\ py.decimal_value padded = S k.
Proof.
  intros Hlook.
  assert (k < total) as Hk.
  { apply lookup_lt_Some in Hlook. unfold sequence_strings in Hlook.
    by rewrite length_map, length_seq in Hlook. }
  rewrite (sequence_strings_lookup _ _ Hk) in Hlook. injection Hlook as <-.
  split.
  - apply Forall_app. split; [|apply str_nat_digits].
    apply Forall_forall. by intros c ->%list_elem_of_In%repeat_spec.
  - by rewrite decimal_value_zeros, decimal_value_str_nat.
Qed.

(** X4. The sequence strings of a run sort as the chapters do: of two
    chapters of the same run the earlier one has the smaller string in the
    order of [str], whatever the number of chapters. *)
Theorem sequence_strings_sorted (total i j : nat) (earlier later : text) :
  sequence_strings total !! i = Some earlier ->
  sequence_strings total !! j = Some later ->
  i < j ->
  text_lt earlier later = true.
Proof.
  intros Hi Hj Hlt.
  destruct (sequence_strings_digits _ _ _ Hi) as [Hdi Hvi].
  destruct (sequence_strings_digits _ _ _ Hj) as [Hdj Hvj].
  apply sequence_strings_int in Hi as [_ Hli].
  apply sequence_strings_int in Hj as [_ Hlj].
  apply digits_text_lt; [congruence|done|done|lia].
Qed.

Lemma sequence_strings_sorted_witness :
  text_lt (str "009") (str "010") = true.
Proof.
  apply (sequence_strings_sorted 120 8 9 (str "009") (str "010"));
    [reflexivity|reflexivity|lia].
Defined.

(** ** Line breaks, run by run *)

Lemma greedy_run ok next run rest m :
  Forall (fun c => ok c = true) run ->
  match rest with c :: _ => ok c = false | [] => True end ->
  next rest = Some m ->
  re.greedy ok next (run ++ rest) = Some (run ++ m).
Proof.
  intros Hrun Hrest Hnext. induction Hrun as [|c run Hc _ IH]; cbn [app].
  - destruct rest as [|c rest]; cbn [re.greedy]; [done|]. by rewrite Hrest.
  - cbn [re.greedy]. by rewrite Hc, IH.
Qed.

Lemma pieces_skip p dotall inside rest :
  re.pieces p dotall (length inside) (inside ++ rest) = re.pieces p dotall 0 rest.
Proof. induction inside as [|c inside IH]; [done|]. exact IH. Qed.

Lemma pieces_white_lines_gap before rest :
  newline ∉ before ->
  re.pieces [(re.Chr newline, re.Plus)] false 0 (before ++ rest)
  = map re.Gap before ++ re.pieces [(re.Chr newline, re.Plus)] false 0 rest.
Proof.
  induction before as [|c before IH]; [done|].
  intros [Hc Hb]%not_elem_of_cons. cbn [app re.pieces].
  rewrite (white_lines_elsewhere _ _ (not_eq_sym Hc)). cbn [map app].
  by rewrite IH.
Qed.

Lemma pieces_white_lines_run k rest :
  head rest <> Some newline ->
  re.pieces [(re.Chr newline, re.Plus)] false 0
    (repeat newline (S k) ++ rest)
  = re.Hit (repeat newline (S k))
      :: re.pieces [(re.Chr newline, re.Plus)] false 0 rest.
Proof.
  intros Hrest. cbn [repeat app re.pieces].
  assert (re.match_at [(re.Chr newline, re.Plus)] false false
            (newline :: repeat newline k ++ rest)
          = Some (newline :: repeat newline k)) as ->.
  { unfold re.match_at. cbn [re.match_items re.atom_matches].
    rewrite Ascii.eqb_refl.
    rewrite (greedy_run _ _ (repeat newline k) rest []).
    - by rewrite app_nil_r.
    - apply Forall_forall. intros c ->%list_elem_of_In%repeat_spec.
      apply Ascii.eqb_refl.
    - destruct rest as [|c rest]; [done|]. apply Ascii.eqb_neq.
      intros ->. by apply Hrest.
    - reflexivity. }
  f_equal. apply pieces_skip.
Qed.

(** X5. A body without line feeds comes back from
    [convert_line_breaks_to_html] as it is. *)
Theorem convert_line_breaks_to_html_fixes_plain (s : text) :
  newline ∉ s -> convert_line_breaks_to_html s = Ok s.
Proof.
  intros Hs. rewrite convert_line_breaks_to_html_eq.
  by rewrite (pieces_white_lines_without_newline _ Hs), substitute_gaps.
Qed.

Lemma convert_line_breaks_to_html_fixes_plain_witness :
  convert_line_breaks_to_html (str "one paragraph") = Ok (str "one paragraph").
Proof.
  apply convert_line_breaks_to_html_fixes_plain. intros Hin.
  refine (bool_decide_eq_false_1 _ _ Hin). vm_compute. reflexivity.
Defined.

(** X6. [convert_line_breaks_to_html] works run by run: a text made of a
    stretch without line feeds, then one or more line feeds, then a rest
    that does not start with a line feed, becomes the stretch, one
    [<br><br>], and the transform of the rest.  However long the run, it
    leaves one marker. *)
Theorem convert_line_breaks_to_html_run (before rest : text) (k : nat) :
  newline ∉ before ->
  head rest <> Some newline ->
  exists converted,
    convert_line_breaks_to_html rest = Ok converted
    /\ convert_line_breaks_to_html (before ++ repeat newline (S k) ++ rest)
       = Ok (before ++ Html.DOUBLE_LINE_BREAK ++ converted).
Proof.
  intros Hbefore Hrest. eexists. split; [apply convert_line_breaks_to_html_eq|].
  rewrite convert_line_breaks_to_html_eq.
  rewrite (pieces_white_lines_gap _ _ Hbefore), (pieces_white_lines_run _ _ Hrest).
  unfold re.substitute at 1. rewrite flat_map_app. cbn [flat_map].
  fold (re.substitute Html.DOUBLE_LINE_BREAK (map re.Gap before)).
  by rewrite substitute_gaps.
Qed.

Lemma convert_line_breaks_to_html_run_witness :
  convert_line_breaks_to_html
    (str "first" ++ repeat newline 3 ++ str "second")
  = Ok (str "first<br><br>second").
Proof.
  destruct (convert_line_breaks_to_html_run (str "first") (str "second") 2)
    as (converted & Hrest & Hall).
  - intros Hin. refine (bool_decide_eq_false_1 _ _ Hin). vm_compute. reflexivity.
  - discriminate.
  - rewrite Hall. vm_compute in Hrest. injection Hrest as <-. reflexivity.
Defined.

(** ** Saving a chapter *)

Lemma split_nonempty sep n s : py.split sep n s <> [].
Proof. destruct n; cbn [py.split]; [done|]. by destruct (py.break_at sep s) as [[a b]|]. Qed.

Lemma join_cons sep x rest :
  rest <> [] -> py.join sep (x :: rest) = x ++ sep ++ py.join sep rest.
Proof. by destruct rest. Qed.

Lemma dashed_without_space s : " " ∉ s -> dashed s = s.
Proof.
  unfold dashed. induction s as [|c s IH]; [done|].
  intros [Hc Hs]%not_elem_of_cons. cbn [map].
  apply not_eq_sym, Ascii.eqb_neq in Hc as ->. by rewrite IH.
Qed.

Lemma join_split_dashed n s :
  length s <= n -> py.join (str "-") (py.split " " n s) = dashed s.
Proof.
  revert s. induction n as [|n IH]; intros s Hlen.
  - destruct s; [done|simpl in Hlen; lia].
  - cbn [py.split]. destruct (py.break_at " " s) as [[a b]|] eqn:Hbreak.
    + apply break_at_Some in Hbreak as [-> Ha].
      rewrite join_cons by apply split_nonempty.
      rewrite IH by (rewrite length_app in Hlen; simpl in Hlen; lia).
      unfold dashed at 2. rewrite map_app. cbn [map].
      fold (dashed a). fold (dashed b).
      rewrite (dashed_without_space a) by done. reflexivity.
    + apply break_at_None in Hbreak. cbn [py.join].
      by rewrite dashed_without_space.
Qed.

Section Chapters.

Context {collaborators : Collaborators}.

Lemma save_chapter_run (chapter : Chapter) (chapters_dir : text) (w : World) :
  save_chapter chapter chapters_dir w =
  ({| files :=
        <[chapter_file_path chapters_dir (number_padded chapter) (title chapter)
          := html chapter]> (files w);
      driver_url := driver_url w |},
   Ok tt).
Proof.
  unfold save_chapter, text_to_file, write_file, chapter_file_path.
  by rewrite join_split_dashed.
Qed.


Lemma download_chapter_run (url chapters_dir padded_chapter_number : text)
  (w : World) :
  let run := download_chapter url chapters_dir padded_chapter_number w in
  driver_url (fst run) = Some url
  /\ match snd run with
     | Ok chapter_html =>
         exists title_text body_plain body_html source,
           find_element_text url CLASS_NAME Html.CHAPTER_TITLE_CLASS
           = Ok title_text
           /\ find_element_text url ID Html.CHAPTER_BODY_ID = Ok body_plain
           /\ convert_line_breaks_to_html body_plain = Ok body_html
           /\ (newline ∉ body_html)
           /\ files w !! FilePath.CHAPTER_TEMPLATE = Some source
           /\ template_render (py.universal_newlines source)
                [(str "chapter_title", VText (str_title title_text));
                 (str "chapter_body", VText body_html)]
              = Ok chapter_html
           /\ files (fst run)
              = <[chapter_file_path chapters_dir padded_chapter_number
                    (str_title title_text) := chapter_html]> (files w)
     | _ => files (fst run) = files w
     end.
Proof.
  intros run. subst run.
  unfold download_chapter, driver_get, driver_find_element,
    render_chapter_template, read_file, lift.
  unfold mbind, M_bind, bind, ret. cbn [driver_url files fst snd].
  destruct (find_element_text url CLASS_NAME Html.CHAPTER_TITLE_CLASS)
    as [title_text|e|] eqn:Htitle; [|by split|by split].
  destruct (find_element_text url ID Html.CHAPTER_BODY_ID)
    as [body_plain|e|] eqn:Hbody; [|by split|by split].
  rewrite convert_line_breaks_to_html_eq.
  destruct (files w !! FilePath.CHAPTER_TEMPLATE) as [source|] eqn:Hsource;
    [|by split].
  destruct (template_render _ _) as [chapter_html|e|] eqn:Hrender;
    [|by split|by split].
  rewrite save_chapter_run. cbn [driver_url files fst snd].
  split; [done|].
  exists title_text, body_plain,
    (re.substitute Html.DOUBLE_LINE_BREAK
       (re.pieces [(re.Chr newline, re.Plus)] false 0 body_plain)), source.
  split; [done|]. split; [done|].
  split; [apply convert_line_breaks_to_html_eq|].
  split; [apply substitute_white_lines_no_newline,
            DOUBLE_LINE_BREAK_no_newline|].
  by split.
Qed.

(** X8. [download_chapter] leaves the browser on the address of the chapter.
    When it returns a page, the title and the body were found, the page is
    what the template made of the title in title case and of the body with
    its line breaks converted (a text without line feeds), and the one file
    written is that page at the location of the chapter.  When it does not
    return, for a missing element, a missing template or a template error,
    no file is written. *)
Theorem download_chapter_outcome (url chapters_dir padded_chapter_number : text)
  (w : World) :
  let run := download_chapter url chapters_dir padded_chapter_number w in
  driver_url (fst run) = Some url
  /\ match snd run with
     | Ok chapter_html =>
         exists title_text body_plain body_html source,
           find_element_text url CLASS_NAME Html.CHAPTER_TITLE_CLASS
           = Ok title_text
           /\ find_element_text url ID Html.CHAPTER_BODY_ID = Ok body_plain
           /\ convert_line_breaks_to_html body_plain = Ok body_html
           /\ (newline ∉ body_html)
           /\ files w !! FilePath.CHAPTER_TEMPLATE = Some source
           /\ template_render (py.universal_newlines source)
                [(str "chapter_title", VText (str_title title_text));
                 (str "chapter_body", VText body_html)]
              = Ok chapter_html
           /\ files (fst run)
              = <[chapter_file_path chapters_dir padded_chapter_number
                    (str_title title_text) := chapter_html]> (files w)
     | _ => files (fst run) = files w
     end.
Proof. apply download_chapter_run. Qed.

End Chapters.

(** ** Which files a run touches *)

Lemma writes_only_weaken {A} (allowed allowed' : text -> Prop) (m : M A) :
  (forall path, allowed path -> allowed' path) ->
  writes_only allowed m -> writes_only allowed' m.
Proof. intros Himp Hm w path Hpath. apply Hm. intros H. by apply Hpath, Himp. Qed.

Lemma writes_only_ret {A} allowed (a : A) : writes_only allowed (ret a).
Proof. by intros w path _. Qed.


Lemma writes_only_bind {A B} allowed (m : M A) (f : A -> M B) :
  writes_only allowed m -> (forall a, writes_only allowed (f a)) ->
  writes_only allowed (m ≫= f).
Proof.
  intros Hm Hf w path Hpath. unfold mbind, M_bind, bind.
  specialize (Hm w path Hpath).
  destruct (m w) as [w1 [a|e|]]; cbn [fst] in *; [|done|done].
  by rewrite (Hf a w1 path Hpath).
Qed.



Lemma writes_only_driver_get allowed url : writes_only allowed (driver_get url).
Proof. by intros w path _. Qed.


Lemma lookup_combine {A B} (l : list A) (l' : list B) k a b :
  combine l l' !! k = Some (a, b) <-> l !! k = Some a /\ l' !! k = Some b.
Proof.
  revert l' k. induction l as [|x l IH]; intros [|y l'] k; cbn [combine].
  - split; [done|by intros [? _]].
  - split; [done|by intros [? _]].
  - split; [done|by intros [_ ?]].
  - destruct k as [|k]; cbn.
    + split; [by intros [= -> ->]|by intros [[= ->] [= ->]]].
    + apply IH.
Qed.

Lemma map_fst_combine {A B} (l : list A) (l' : list B) :
  length l = length l' -> map fst (combine l l') = l.
Proof.
  revert l'. induction l as [|x l IH]; intros [|y l'] Hlen;
    try discriminate Hlen; [done|].
  cbn [combine map fst]. f_equal. apply IH. by injection Hlen.
Qed.

Lemma length_sequence_strings total : length (sequence_strings total) = total.
Proof. unfold sequence_strings. by rewrite length_map, length_seq. Qed.

Lemma NoDup_sequence_strings total : NoDup (sequence_strings total).
Proof.
  apply NoDup_alt. intros i j padded Hi Hj.
  apply sequence_strings_int in Hi as [Hi _].
  apply sequence_strings_int in Hj as [Hj _].
  rewrite Hi in Hj. injection Hj. lia.
Qed.

Section Files.

Context {collaborators : Collaborators}.

Lemma writes_only_driver_find_element allowed by_ name :
  writes_only allowed (driver_find_element by_ name).
Proof. by intros w path _. Qed.

Lemma chapter_file_path_inj chapters_dir padded padded' chapter_title chapter_title' :
  length padded = length padded' ->
  chapter_file_path chapters_dir padded chapter_title
  = chapter_file_path chapters_dir padded' chapter_title' ->
  padded = padded'.
Proof.
  intros Hlen Heq. unfold chapter_file_path in Heq.
  apply app_inv_head in Heq. cbn [str list_ascii_of_string app] in Heq.
  injection Heq as Heq. by apply app_inj_1 in Heq as [-> _].
Qed.

Lemma writes_only_download_chapter url chapters_dir padded_chapter_number :
  writes_only
    (fun path => exists chapter_title,
         path = chapter_file_path chapters_dir padded_chapter_number chapter_title)
    (download_chapter url chapters_dir padded_chapter_number).
Proof.
  intros w path Hpath.
  pose proof (download_chapter_run url chapters_dir padded_chapter_number w)
    as Hrun.
  cbv zeta in Hrun. destruct Hrun as [_ Hrun].
  destruct (snd (download_chapter _ _ _ w)) as [chapter_html|e|];
    [|by rewrite Hrun|by rewrite Hrun].
  destruct Hrun as (title_text & _ & _ & _ & _ & _ & _ & _ & _ & _ & ->).
  apply lookup_insert_ne. intros <-. apply Hpath. by eexists.
Qed.

Lemma writes_only_for_each {A B} allowed (f : A -> M B) (xs : list A) :
  (forall x, x ∈ xs -> writes_only allowed (f x)) ->
  writes_only allowed (for_each f xs).
Proof.
  induction xs as [|x xs IH]; intros Hf; cbn [for_each].
  - apply writes_only_ret.
  - apply writes_only_bind; [apply Hf; left|]. intros y.
    apply writes_only_bind; [|intros ys; apply writes_only_ret].
    apply IH. intros x' Hx'. apply Hf. by right.
Qed.

Lemma for_each_download_chapter_files chapters_dir width
  (numbered : list (text * text)) w w' chapter_htmls :
  for_each (fun '(padded_chapter_number, chapter_url) =>
              download_chapter chapter_url chapters_dir padded_chapter_number)
           numbered w
  = (w', Ok chapter_htmls) ->
  Forall (fun item => length (fst item) = width) numbered ->
  NoDup (map fst numbered) ->
  length chapter_htmls = length numbered
  /\ forall k padded url chapter_html,
       numbered !! k = Some (padded, url) ->
       chapter_htmls !! k = Some chapter_html ->
       exists title_text,
         find_element_text url CLASS_NAME Html.CHAPTER_TITLE_CLASS = Ok title_text
         /\ files w' !! chapter_file_path chapters_dir padded (str_title title_text)
            = Some chapter_html.
Proof.
  revert w chapter_htmls.
  induction numbered as [|[padded0 url0] numbered IH];
    intros w chapter_htmls Hrun Hwidth Hnodup.
  - cbn in Hrun. injection Hrun as <- <-. split; [done|]. intros k. by destruct k.
  - cbn [for_each] in Hrun. unfold mbind, M_bind, bind in Hrun.
    pose proof (download_chapter_run url0 chapters_dir padded0 w) as Hfirst.
    cbv zeta in Hfirst. destruct Hfirst as [_ Hfirst].
    destruct (download_chapter url0 chapters_dir padded0 w)
      as [w1 [html0|e|]] eqn:Hdl; [|done|done].
    cbn [fst snd] in Hfirst.
    destruct Hfirst as (title0 & _ & _ & _ & Htitle0 & _ & _ & _ & _ & _ & Hfiles1).
    destruct (for_each _ numbered w1) as [w2 [htmls|e|]] eqn:Hrest;
      [|done|done].
    unfold ret in Hrun. injection Hrun as <- <-.
    apply Forall_cons in Hwidth as [Hwidth0 Hwidth].
    cbn [map fst] in Hnodup. apply NoDup_cons in Hnodup as [Hfresh Hnodup].
    destruct (IH w1 htmls Hrest Hwidth Hnodup) as [Hlen Hfiles].
    split; [cbn [length]; by rewrite Hlen|].
    intros [|k] padded url chapter_html Hitem Hhtml; cbn in Hitem, Hhtml.
    + injection Hitem as <- <-. injection Hhtml as <-.
      exists title0. split; [done|].
      assert (writes_only
                (fun path => exists padded' chapter_title,
                     padded' ∈ map fst numbered
                     /\ path = chapter_file_path chapters_dir padded' chapter_title)
                (for_each (fun '(padded_chapter_number, chapter_url) =>
                             download_chapter chapter_url chapters_dir
                               padded_chapter_number) numbered)) as Hframe.
      { apply writes_only_for_each. intros [padded' url'] Hin.
        eapply writes_only_weaken; [|apply writes_only_download_chapter].
        intros path [chapter_title ->]. exists padded', chapter_title.
        split; [|done]. apply list_elem_of_fmap. by exists (padded', url'). }
      specialize (Hframe w1 (chapter_file_path chapters_dir padded0 (str_title title0))).
      rewrite Hrest in Hframe. cbn [fst] in Hframe. rewrite Hframe.
      * rewrite Hfiles1. apply lookup_insert_eq.
      * intros (padded' & chapter_title & Hin & Heq).
        apply chapter_file_path_inj in Heq.
        -- subst padded'. by apply Hfresh.
        -- apply list_elem_of_fmap in Hin as ([p u] & -> & Hin).
           rewrite Forall_forall in Hwidth. rewrite (Hwidth _ Hin). done.
    + by apply (Hfiles k).
Qed.

Lemma download_all_chapters_for_each chapter_urls chapters_dir w :
  download_all_chapters chapter_urls chapters_dir w =
  for_each (fun '(padded_chapter_number, chapter_url) =>
              download_chapter chapter_url chapters_dir padded_chapter_number)
           (combine (sequence_strings (length chapter_urls)) chapter_urls) w.
Proof.
  unfold download_all_chapters.
  rewrite download_all_chapters_loop_for_each.
  unfold sequence_strings. rewrite for_each_combine_map.
  unfold py.enumerate, mbind, M_bind, bind.
  by destruct (for_each _ _ w) as [w1 [htmls|e|]].
Qed.

(** X9. When [download_all_chapters] returns, it returns one page per
    locator, and at the end of the run every chapter has its file: the page
    returned for the [k]-th locator is what the file at the location of
    that chapter, under its sequence string and its title, holds.  No
    chapter has overwritten another. *)
Theorem download_all_chapters_keeps_every_chapter
  (chapter_urls : list text) (chapters_dir : text) (w w' : World)
  (chapter_htmls : list text) :
  download_all_chapters chapter_urls chapters_dir w = (w', Ok chapter_htmls) ->
  length chapter_htmls = length chapter_urls
  /\ forall k url padded chapter_html,
       chapter_urls !! k = Some url ->
       sequence_strings (length chapter_urls) !! k = Some padded ->
       chapter_htmls !! k = Some chapter_html ->
       exists title_text,
         find_element_text url CLASS_NAME Html.CHAPTER_TITLE_CLASS = Ok title_text
         /\ files w' !! chapter_file_path chapters_dir padded (str_title title_text)
            = Some chapter_html.
Proof.
  rewrite download_all_chapters_for_each. intros Hrun.
  eapply (for_each_download_chapter_files _
            (length (py.str_nat (length chapter_urls)))) in Hrun
    as [Hlen Hfiles].
  - split.
    + rewrite Hlen, length_combine, length_sequence_strings. lia.
    + intros k url padded chapter_html Hurl Hpadded Hhtml.
      apply (Hfiles k padded url chapter_html); [|done].
      by apply lookup_combine.
  - apply Forall_forall. intros [padded url] [k Hk]%list_elem_of_lookup.
    apply lookup_combine in Hk as [Hk _].
    by apply sequence_strings_int in Hk as [_ ?].
  - rewrite map_fst_combine by apply length_sequence_strings.
    apply NoDup_sequence_strings.
Qed.

End Files.

Lemma download_all_chapters_keeps_every_chapter_witness :
  let run :=
    download_all_chapters (collaborators := demo.site)
      [str "http://h/demo-1.html"; str "http://h/demo-2.html"]
      (str "output/demo/chapters") demo.world in
  files (fst run) !! str "output/demo/chapters/1_the-title.html"
  = Some (str "<h1>chapter</h1>the titlefirst<br><br>second")
  /\ files (fst run) !! str "output/demo/chapters/2_the-title.html"
     = Some (str "<h1>chapter</h1>the titlefirst<br><br>second").
Proof.
  intros run.
  pose proof (download_all_chapters_keeps_every_chapter
                (collaborators := demo.site)
                [str "http://h/demo-1.html"; str "http://h/demo-2.html"]
                (str "output/demo/chapters") demo.world (fst run)
                [str "<h1>chapter</h1>the titlefirst<br><br>second";
                 str "<h1>chapter</h1>the titlefirst<br><br>second"]
                ltac:(vm_compute; reflexivity)) as [_ Hfiles].
  split.
  - destruct (Hfiles 0 (str "http://h/demo-1.html") (str "1")
                (str "<h1>chapter</h1>the titlefirst<br><br>second")
                eq_refl eq_refl eq_refl) as (title_text & Htitle & Hfile).
    injection Htitle as <-. exact Hfile.
  - destruct (Hfiles 1 (str "http://h/demo-2.html") (str "2")
                (str "<h1>chapter</h1>the titlefirst<br><br>second")
                eq_refl eq_refl eq_refl) as (title_text & Htitle & Hfile).
    injection Htitle as <-. exact Hfile.
Defined.

(** ** The whole run *)

Lemma bind_Ok {A B} (m : M A) (f : A -> M B) w w' b :
  (m ≫= f) w = (w', Ok b) ->
  exists a w1, m w = (w1, Ok a) /\ f a w1 = (w', Ok b).
Proof.
  unfold mbind, M_bind, bind. destruct (m w) as [w1 [a|e|]]; [|done|done].
  intros H. by exists a, w1.
Qed.


Section WholeRun.

Context {collaborators : Collaborators}.

Lemma writes_only_download_all_chapters chapter_urls chapters_dir :
  writes_only (fun path => exists rest, path = chapters_dir ++ str "/" ++ rest)
    (download_all_chapters chapter_urls chapters_dir).
Proof.
  intros w path Hpath. rewrite download_all_chapters_for_each.
  revert w path Hpath. apply writes_only_for_each. intros [padded url] _.
  eapply writes_only_weaken; [|apply writes_only_download_chapter].
  intros path [chapter_title ->]. unfold chapter_file_path. by eexists.
Qed.

Lemma under_output_novel_dir novel_title rest :
  under_output (get_novel_dir novel_title ++ rest).
Proof. unfold under_output, get_novel_dir. eexists. by rewrite <- !app_assoc. Qed.

Lemma main_run url w :
  main url w =
  match _split_home_url url with
  | Ok (_, novel_title) => main_after_split url novel_title w
  | Raise e => (w, Raise e)
  | Unmodelled => (w, Unmodelled)
  end.
Proof.
  unfold main, lift, mbind at 1, M_bind at 1, bind at 1.
  by destruct (_split_home_url url) as [[base_domain novel_title]|e|].
Qed.



Lemma not_under_output_templates :
  ~ under_output FilePath.CHAPTER_TEMPLATE
  /\ ~ under_output FilePath.NOVEL_TEMPLATE
  /\ ~ under_output FilePath.LOG_FILE.
Proof. by repeat split; intros [rest Heq]. Qed.



Lemma home_page_not_below novel_title rest :
  FilePath.HOME_PAGE <> get_novel_dir novel_title ++ str "/" ++ rest.
Proof.
  unfold FilePath.HOME_PAGE, get_novel_dir. rewrite <- !app_assoc.
  intros Heq%app_inv_head. cbn [str list_ascii_of_string app] in Heq.
  injection Heq as Heq.
  assert ("/" ∈ novel_title ++ "/" :: rest) as Hin
    by (apply elem_of_app; right; left).
  rewrite <- Heq in Hin.
  refine (bool_decide_eq_false_1 _ _ Hin). vm_compute. reflexivity.
Qed.

Lemma download_all_chapters_length chapter_urls chapters_dir w w' chapter_htmls :
  download_all_chapters chapter_urls chapters_dir w = (w', Ok chapter_htmls) ->
  length chapter_htmls = length chapter_urls.
Proof.
  rewrite download_all_chapters_for_each. intros Hrun.
  eapply (for_each_download_chapter_files _
            (length (py.str_nat (length chapter_urls)))) in Hrun as [Hlen _].
  - rewrite Hlen, length_combine, length_sequence_strings. lia.
  - apply Forall_forall. intros [padded url] [k Hk]%list_elem_of_lookup.
    apply lookup_combine in Hk as [Hk _].
    by apply sequence_strings_int in Hk as [_ ?].
  - rewrite map_fst_combine by apply length_sequence_strings.
    apply NoDup_sequence_strings.
Qed.

(** X12. When [main] returns, the address was split, the anchor page was
    retrieved and is what [output/home.html] holds, the listing pages gave
    a list of locators, one page per locator went into the template of the
    collection as it was before the run, the result is what the file of the
    collection holds, and the browser is closed. *)
Theorem main_returns (url : text) (w w' : World) :
  main url w = (w', Ok tt) ->
  exists base_domain novel_title anchor_markup chapter_pager_last chapter_urls
         chapter_htmls source novel_html,
    _split_home_url url = Ok (base_domain, novel_title)
    /\ session_get url = Ok anchor_markup
    /\ files w' !! FilePath.HOME_PAGE = Some anchor_markup
    /\ extract_chapter_urls chapter_pager_last url = Ok chapter_urls
    /\ length chapter_htmls = length chapter_urls
    /\ files w !! FilePath.NOVEL_TEMPLATE = Some source
    /\ template_render (py.universal_newlines source)
         [(str "chapter_htmls", VList chapter_htmls)] = Ok novel_html
    /\ files w' !! (get_novel_dir novel_title ++ str "/" ++ novel_title
                      ++ str ".html") = Some novel_html
    /\ driver_url w' = None.
Proof.
  rewrite main_run.
  destruct (_split_home_url url) as [[base_domain novel_title]|e|] eqn:Hsplit;
    [|done|done].
  unfold main_after_split.
  intros ([] & w1 & Hhome & Hrun)%bind_Ok.
  apply bind_Ok in Hrun as (chapter_pager_last & w2 & Hpager & Hrun).
  apply bind_Ok in Hrun as (chapter_urls & w3 & Hextract & Hrun).
  apply bind_Ok in Hrun as (chapter_htmls & w4 & Hchapters & Hrun).
  apply bind_Ok in Hrun as (novel_html & w5 & Hrender & Hrun).
  apply bind_Ok in Hrun as (novel_path & w6 & Hsave & Hclose).
  (* the anchor page *)
  unfold download_home_page, url_to_file, text_to_file, write_file, lift,
    mbind, M_bind, bind in Hhome.
  destruct (session_get url) as [anchor_markup|e|] eqn:Hget; [|done|done].
  injection Hhome as <-.
  (* the pager reads only *)
  assert (w2 = {| files := <[FilePath.HOME_PAGE := anchor_markup]> (files w);
                  driver_url := driver_url w |}) as ->.
  { unfold get_total_pages_in_chapter_pager, read_file, lift,
      mbind, M_bind, bind in Hpager.
    destruct (files _ !! FilePath.HOME_PAGE); [|done].
    by injection Hpager as <-. }
  unfold lift in Hextract. injection Hextract as <- Hextract.
  (* the chapters *)
  pose proof (download_all_chapters_length _ _ _ _ _ Hchapters) as Hlen.
  pose proof (writes_only_download_all_chapters chapter_urls
                (get_chapters_dir (get_novel_dir novel_title))) as Hframe.
  assert (forall path,
             (forall rest, path <> get_novel_dir novel_title ++ str "/" ++ rest) ->
             files w4 !! path
             = (<[FilePath.HOME_PAGE := anchor_markup]> (files w)) !! path)
    as Hkept.
  { intros path Hpath.
    match type of Hchapters with
    | download_all_chapters _ _ ?w3 = _ => specialize (Hframe w3 path)
    end.
    rewrite Hchapters in Hframe. apply Hframe. intros [rest ->]. unfold get_chapters_dir in Hpath.
    apply (Hpath (FolderName.CHAPTERS ++ str "/" ++ rest)).
    by rewrite <- !app_assoc. }
  (* the aggregate *)
  unfold render_novel_template, read_file, lift, mbind, M_bind, bind in Hrender.
  destruct (files w4 !! FilePath.NOVEL_TEMPLATE) as [source|] eqn:Hsource;
    [|done].
  destruct (template_render _ _) as [rendered|e|] eqn:Htemplate; [|done|done].
  injection Hrender as <- <-.
  unfold save_novel, text_to_file, write_file, mbind, M_bind, bind, ret in Hsave.
  injection Hsave as <- <-.
  unfold driver_close in Hclose. injection Hclose as <-.
  exists base_domain, novel_title, anchor_markup, chapter_pager_last,
    chapter_urls, chapter_htmls, source, rendered.
  cbn [files driver_url].
  split; [done|]. split; [done|]. split.
  { rewrite lookup_insert_ne by (apply not_eq_sym, home_page_not_below).
    rewrite Hkept by (intros rest; apply home_page_not_below).
    apply lookup_insert_eq. }
  split; [done|]. split; [done|]. split.
  { rewrite Hkept in Hsource.
    - by rewrite lookup_insert_ne in Hsource.
    - intros rest Heq. apply (proj1 (proj2 not_under_output_templates)).
      rewrite Heq. apply under_output_novel_dir. }
  split; [done|]. split; [apply lookup_insert_eq|done].
Qed.

End WholeRun.


Lemma main_returns_witness :
  let run := main (collaborators := demo.site) demo.home_url demo.world in
  files (fst run) !! FilePath.HOME_PAGE = Some (demo.pager_link 2 (str "Final"))
  /\ driver_url (fst run) = None.
Proof.
  intros run.
  destruct (main_returns (collaborators := demo.site) demo.home_url
              demo.world (fst run) ltac:(vm_compute; reflexivity))
    as (base_domain & novel_title & anchor_markup & chapter_pager_last
        & chapter_urls & chapter_htmls & source & novel_html
        & _ & Hget & Hhome & _ & _ & _ & _ & _ & Hclosed).
  split; [|exact Hclosed].
  rewrite Hhome. f_equal. by injection Hget as <-.
Defined.


(** ** Discovery that does not come back *)

Section Stopping.

Context {collaborators : Collaborators}.

Lemma extract_chapter_urls_loop_app before after home_url chapter_urls :
  extract_chapter_urls_loop (before ++ after) home_url chapter_urls
  = (found ← extract_chapter_urls_loop before home_url chapter_urls;
     extract_chapter_urls_loop after home_url found).
Proof.
  revert chapter_urls. induction before as [|page_number before IH];
    intros chapter_urls; [done|].
  cbn [app extract_chapter_urls_loop].
  destruct (extract_chapter_urls_step page_number home_url) as [in_page|e|];
    cbn [mbind outcome_bind obind]; [apply IH|done|done].
Qed.

(** X13. A listing page that cannot be retrieved ends the discovery: when
    the pages before it were retrieved and parsed and [session.get] raises
    on it, [extract_chapter_urls] raises the same, and the locators found
    so far are not returned. *)
Theorem discovery_stops_at_failed_page (chapter_pager_last : Z) (home_url : text)
  (contents : list text) (parsed : list (list text)) (e : exn) :
  (Z.of_nat (length contents) < chapter_pager_last)%Z ->
  (forall i content,
      contents !! i = Some content ->
      session_get (home_url ++ str "?page=" ++ py.str_int (1 + Z.of_nat i))
      = Ok content) ->
  Forall2 (fun content urls => parse_chapter_urls content home_url = Ok urls)
          contents parsed ->
  session_get (home_url ++ str "?page="
                 ++ py.str_int (1 + Z.of_nat (length contents)))
  = Raise e ->
  extract_chapter_urls chapter_pager_last home_url = Raise e.
Proof.
  intros Hlast Hget Hparse Hfail. unfold extract_chapter_urls, py.range.
  replace (Z.to_nat (chapter_pager_last + 1 - 1))
    with (length contents + S (Z.to_nat chapter_pager_last - S (length contents)))
    by lia.
  rewrite seq_app, map_app, extract_chapter_urls_loop_app.
  rewrite (extract_chapter_urls_loop_concat _ _ [] (map (skipn 6) parsed))
    by by apply pages_from.
  cbn [mbind outcome_bind obind seq map extract_chapter_urls_loop].
  unfold extract_chapter_urls_step. rewrite Nat.add_0_l, Hfail. reflexivity.
Qed.

End Stopping.

Lemma discovery_stops_at_failed_page_witness :
  extract_chapter_urls (collaborators := demo.site) 5 demo.home_url
  = Raise TransportError.
Proof.
  apply (discovery_stops_at_failed_page (collaborators := demo.site)
           5 demo.home_url [demo.page_1; demo.page_2; demo.page_3]
           [map (fun n => str "http://h/demo-" ++ py.str_int n ++ str ".html")
                (demo.decoys ++ [1; 2]%Z);
            map (fun n => str "http://h/demo-" ++ py.str_int n ++ str ".html")
                (demo.decoys ++ [3]%Z);
            map (fun n => str "http://h/demo-" ++ py.str_int n ++ str ".html")
                [4; 5]%Z]).
  - simpl. lia.
  - intros [|[|[|i]]] content Hi; try discriminate Hi; injection Hi as <-;
      vm_compute; reflexivity.
  - repeat constructor.
  - vm_compute. reflexivity.
Defined.

(** ** What a locator looks like *)

Lemma token_of_plain c :
  plain_char c = true ->
  Ascii.eqb c backslash = false
  /\ re.token_of c = Some (re.TAtom (re.Chr c)).
Proof.
  unfold plain_char. intros [Hb Ht]%andb_prop.
  apply negb_true_iff in Hb. split; [done|].
  unfold re.token_of in *.
  destruct (Ascii.eqb c "."); [done|]. destruct (Ascii.eqb c "*"); [done|].
  destruct (Ascii.eqb c "+"); [done|].
  by destruct (re.outside_fragment c).
Qed.

Lemma lex_plain literal rest :
  forallb plain_char literal = true ->
  re.lex (literal ++ rest)
  = option_map (app (map (fun c => re.TAtom (re.Chr c)) literal)) (re.lex rest).
Proof.
  induction literal as [|c literal IH]; intros Hplain.
  - cbn. by destruct (re.lex rest).
  - cbn [forallb] in Hplain. apply andb_prop in Hplain as [Hc Hplain].
    apply token_of_plain in Hc as [Hb Ht].
    cbn [app re.lex]. rewrite Hb, Ht, (IH Hplain).
    by destruct (re.lex rest).
Qed.

Lemma items_atom_atom a b tokens :
  re.items (re.TAtom a :: re.TAtom b :: tokens)
  = option_map (cons (a, re.One)) (re.items (re.TAtom b :: tokens)).
Proof. reflexivity. Qed.

Lemma items_literals literal a tokens :
  re.items (map (fun c => re.TAtom (re.Chr c)) literal ++ re.TAtom a :: tokens)
  = option_map (app (map (fun c => (re.Chr c, re.One)) literal))
      (re.items (re.TAtom a :: tokens)).
Proof.
  induction literal as [|c literal IH].
  - cbn [map app]. by destruct (re.items (re.TAtom a :: tokens)).
  - destruct literal as [|c' literal]; cbn [map app] in *;
      rewrite items_atom_atom; [|rewrite IH];
      by destruct (re.items (re.TAtom a :: tokens)).
Qed.

Lemma compile_rel_url_pattern novel_title :
  forallb plain_char novel_title = true ->
  re.compile (str "/" ++ novel_title ++ str "-" ++ RegEx.ANY_NUMBERS
                ++ str ".html")
  = Some (map (fun c => (re.Chr c, re.One)) (str "/" ++ novel_title ++ str "-")
            ++ [(re.Digit, re.Plus); (re.Any, re.One)]
            ++ map (fun c => (re.Chr c, re.One)) (str "html")).
Proof.
  intros Hplain. unfold re.compile.
  replace (str "/" ++ novel_title ++ str "-" ++ RegEx.ANY_NUMBERS ++ str ".html")
    with ((str "/" ++ novel_title ++ str "-")
            ++ RegEx.ANY_NUMBERS ++ str ".html")
    by (by rewrite <- !app_assoc).
  rewrite lex_plain.
  - change (re.lex (RegEx.ANY_NUMBERS ++ str ".html"))
      with (Some (re.TAtom re.Digit :: re.TPlus :: re.TAtom re.Any
                    :: map (fun c => re.TAtom (re.Chr c)) (str "html"))).
    cbn [option_map]. rewrite items_literals. reflexivity.
  - rewrite !forallb_app, Hplain. reflexivity.
Qed.

Lemma hits_denote p dotall skip s :
  Forall (denotes dotall p) (re.hits (re.pieces p dotall skip s)).
Proof.
  revert skip. induction s as [|c s IH]; intros skip.
  - destruct skip; cbn [re.pieces]; [|constructor].
    destruct (re.match_at p dotall false []) as [m|] eqn:Hm; [|constructor].
    apply match_items_sound in Hm as (_ & _ & _ & Hd). by repeat constructor.
  - destruct skip as [|k]; [|apply IH]. cbn [re.pieces].
    assert (forall must_advance m,
               re.match_at p dotall must_advance (c :: s) = Some m ->
               denotes dotall p m) as Hsound.
    { intros must_advance m Hm.
      by apply match_items_sound in Hm as (_ & _ & _ & Hd). }
    destruct (re.match_at p dotall false (c :: s)) as [[|x m]|] eqn:Hm.
    + constructor; [by eapply Hsound|].
      destruct (re.match_at p dotall true (c :: s)) as [[|x m]|] eqn:Hm';
        try apply IH.
      constructor; [by eapply Hsound|apply IH].
    + constructor; [by eapply Hsound|apply IH].
    + apply IH.
Qed.

(** X14. For a slug of characters that stand for themselves in a pattern,
    [parse_chapter_urls] returns, and each locator it returns is the base
    address, a slash, the slug, a dash, one or more digits, one character
    of any kind, and [html]. *)
Theorem parse_chapter_urls_locators
  (listing_page_content home_url base_domain novel_title : text) :
  _split_home_url home_url = Ok (base_domain, novel_title) ->
  forallb plain_char novel_title = true ->
  exists chapter_urls,
    parse_chapter_urls listing_page_content home_url = Ok chapter_urls
    /\ Forall (fun url =>
                 exists digits c,
                   digits <> []
                   /\ Forall (fun d => re.is_digit d = true) digits
                   /\ url = base_domain ++ str "/" ++ novel_title ++ str "-"
                              ++ digits ++ [c] ++ str "html")
              chapter_urls.
Proof.
  intros Hsplit Hplain. unfold parse_chapter_urls. rewrite Hsplit.
  cbn [mbind outcome_bind obind]. unfold re.findall, re.with_pattern.
  rewrite (compile_rel_url_pattern _ Hplain). cbn [mbind outcome_bind obind].
  eexists. split; [reflexivity|].
  apply Forall_map. eapply Forall_impl; [apply hits_denote|].
  intros m Hd. cbn beta in Hd |- *.
  apply denotes_literal in Hd
    as (m' & -> & d & digits & m'' & -> & Hdigit & Hdigits & c & m3 & -> & _ & Hd).
  apply denotes_literal_only in Hd as ->.
  exists (d :: digits), c. split; [done|]. split; [by constructor|].
  by rewrite <- !app_assoc.
Qed.

Lemma parse_chapter_urls_locators_witness :
  exists chapter_urls,
    parse_chapter_urls demo.page_3 demo.home_url = Ok chapter_urls
    /\ Forall (fun url =>
                 exists digits c,
                   digits <> []
                   /\ Forall (fun d => re.is_digit d = true) digits
                   /\ url = str "http://h" ++ str "/" ++ str "demo" ++ str "-"
                              ++ digits ++ [c] ++ str "html")
              chapter_urls.
Proof.
  apply (parse_chapter_urls_locators demo.page_3 demo.home_url
           (str "http://h") (str "demo")); reflexivity.
Defined.

(** ** The pager, exactly *)










(** ** A run of downloads that breaks off *)

Section BrokenRun.

Context {collaborators : Collaborators}.

Lemma for_each_download_chapter_partial chapters_dir width
  (numbered : list (text * text)) w w' e :
  for_each (fun '(padded_chapter_number, chapter_url) =>
              download_chapter chapter_url chapters_dir padded_chapter_number)
           numbered w
  = (w', Raise e) ->
  Forall (fun item => length (fst item) = width) numbered ->
  NoDup (map fst numbered) ->
  exists k padded_k url_k w_k,
    numbered !! k = Some (padded_k, url_k)
    /\ download_chapter url_k chapters_dir padded_k w_k = (w', Raise e)
    /\ driver_url w' = Some url_k
    /\ forall j padded url,
         j < k -> numbered !! j = Some (padded, url) ->
         exists title_text chapter_html,
           find_element_text url CLASS_NAME Html.CHAPTER_TITLE_CLASS
           = Ok title_text
           /\ files w' !! chapter_file_path chapters_dir padded
                            (str_title title_text)
              = Some chapter_html.
Proof.
  revert w.
  induction numbered as [|[padded0 url0] numbered IH];
    intros w Hrun Hwidth Hnodup; [done|].
  cbn [for_each] in Hrun. unfold mbind, M_bind, bind in Hrun.
  pose proof (download_chapter_run url0 chapters_dir padded0 w) as Hfirst.
  cbv zeta in Hfirst. destruct Hfirst as [Hbrowser Hfirst].
  destruct (download_chapter url0 chapters_dir padded0 w)
    as [w1 [html0|e0|]] eqn:Hdl; [| |done].
  - cbn [fst snd] in Hfirst.
    destruct Hfirst as (title0 & _ & _ & _ & Htitle0 & _ & _ & _ & _ & _ & Hfiles1).
    destruct (for_each _ numbered w1) as [w2 [htmls|e1|]] eqn:Hrest;
      [done| |done].
    injection Hrun as <- <-.
    apply Forall_cons in Hwidth as [Hwidth0 Hwidth].
    cbn [map fst] in Hnodup. apply NoDup_cons in Hnodup as [Hfresh Hnodup].
    destruct (IH w1 Hrest Hwidth Hnodup)
      as (k & padded_k & url_k & w_k & Hk & Hfail & Hon & Hkept).
    exists (S k), padded_k, url_k, w_k. split; [done|]. split; [done|].
    split; [done|].
    intros [|j] padded url Hj Hitem; cbn in Hitem.
    + injection Hitem as <- <-. exists title0, html0. split; [done|].
      assert (writes_only
                (fun path => exists padded' chapter_title,
                     padded' ∈ map fst numbered
                     /\ path = chapter_file_path chapters_dir padded' chapter_title)
                (for_each (fun '(padded_chapter_number, chapter_url) =>
                             download_chapter chapter_url chapters_dir
                               padded_chapter_number) numbered)) as Hframe.
      { apply writes_only_for_each. intros [padded' url'] Hin.
        eapply writes_only_weaken; [|apply writes_only_download_chapter].
        intros path [chapter_title ->]. exists padded', chapter_title.
        split; [|done]. apply list_elem_of_fmap. by exists (padded', url'). }
      specialize (Hframe w1 (chapter_file_path chapters_dir padded0 (str_title title0))).
      rewrite Hrest in Hframe. cbn [fst] in Hframe. rewrite Hframe.
      * rewrite Hfiles1. apply lookup_insert_eq.
      * intros (padded' & chapter_title & Hin & Heq).
        apply chapter_file_path_inj in Heq.
        -- subst padded'. by apply Hfresh.
        -- apply list_elem_of_fmap in Hin as ([p u] & -> & Hin).
           rewrite Forall_forall in Hwidth. rewrite (Hwidth _ Hin). done.
    + apply (Hkept j); [lia|done].
  - injection Hrun as <- <-.
    exists 0, padded0, url0, w. split; [done|]. split; [done|].
    split; [exact Hbrowser|]. intros j padded url Hj. lia.
Qed.

(** X17. When [download_all_chapters] breaks off with an exception, it is
    the download of one chapter that raised it, the browser is left on that
    chapter, and every chapter before it has its file: the pages saved so
    far stay saved. *)
Theorem download_all_chapters_keeps_earlier_chapters
  (chapter_urls : list text) (chapters_dir : text) (w w' : World) (e : exn) :
  download_all_chapters chapter_urls chapters_dir w = (w', Raise e) ->
  exists k url_k padded_k w_k,
    chapter_urls !! k = Some url_k
    /\ sequence_strings (length chapter_urls) !! k = Some padded_k
    /\ download_chapter url_k chapters_dir padded_k w_k = (w', Raise e)
    /\ driver_url w' = Some url_k
    /\ forall j url padded,
         j < k ->
         chapter_urls !! j = Some url ->
         sequence_strings (length chapter_urls) !! j = Some padded ->
         exists title_text chapter_html,
           find_element_text url CLASS_NAME Html.CHAPTER_TITLE_CLASS
           = Ok title_text
           /\ files w' !! chapter_file_path chapters_dir padded
                            (str_title title_text)
              = Some chapter_html.
Proof.
  rewrite download_all_chapters_for_each. intros Hrun.
  eapply (for_each_download_chapter_partial _
            (length (py.str_nat (length chapter_urls)))) in Hrun
    as (k & padded_k & url_k & w_k & Hk & Hfail & Hon & Hkept).
  - apply lookup_combine in Hk as [Hpadded Hurl].
    exists k, url_k, padded_k, w_k. split; [done|]. split; [done|].
    split; [done|]. split; [done|]. intros j url padded Hj Hurl_j Hpadded_j.
    apply (Hkept j padded url Hj). by apply lookup_combine.
  - apply Forall_forall. intros [padded url] [k Hk]%list_elem_of_lookup.
    apply lookup_combine in Hk as [Hk _].
    by apply sequence_strings_int in Hk as [_ ?].
  - rewrite map_fst_combine by apply length_sequence_strings.
    apply NoDup_sequence_strings.
Qed.

End BrokenRun.

Lemma download_all_chapters_keeps_earlier_chapters_witness :
  let run :=
    download_all_chapters (collaborators := broken_site)
      [str "http://h/demo-1.html"; str "http://h/demo-2.html";
       str "http://h/demo-3.html"]
      (str "output/demo/chapters") demo.world in
  snd run = Raise NoSuchElementException
  /\ driver_url (fst run) = Some (str "http://h/demo-2.html")
  /\ files (fst run) !! str "output/demo/chapters/1_the-title.html"
     = Some (str "<h1>chapter</h1>the titlefirst<br><br>second").
Proof.
  intros run.
  destruct (download_all_chapters_keeps_earlier_chapters
              (collaborators := broken_site)
              [str "http://h/demo-1.html"; str "http://h/demo-2.html";
               str "http://h/demo-3.html"]
              (str "output/demo/chapters") demo.world (fst run)
              NoSuchElementException ltac:(vm_compute; reflexivity))
    as (k & url_k & padded_k & w_k & Hurl & _ & _ & Hon & _).
  split; [vm_compute; reflexivity|]. split; [|vm_compute; reflexivity].
  rewrite Hon. f_equal.
  assert (driver_url (fst run) = Some (str "http://h/demo-2.html")) as Hcomputed
    by (vm_compute; reflexivity).
  rewrite Hon in Hcomputed. by injection Hcomputed.
Defined.

(** ** The worked example of the specification *)

Example pages_total_of_three :
  get_total_pages_in_chapter_pager
    (demo.world_with_home (demo.pager_link 3 (str "Final")))
  = (demo.world_with_home (demo.pager_link 3 (str "Final")), Ok 3%Z).
Proof.
  rewrite (get_total_pages_in_chapter_pager_read _
             (demo.pager_link 3 (str "Final")))
    by (vm_compute; reflexivity).
  vm_compute. reflexivity.
Qed.

Example twelve_chapters :
  sequence_strings 12 =
  map str ["01"; "02"; "03"; "04"; "05"; "06";
           "07"; "08"; "09"; "10"; "11"; "12"]%string.
Proof. reflexivity. Qed.

Example whole_run :
  let '(w, result) := main (collaborators := demo.site) demo.home_url demo.world in
  result = Ok tt
  /\ files w !! str "output/demo/demo.html"
     = Some (str "<h1>novel</h1>"
               ++ concat (repeat (str "<h1>chapter</h1>the titlefirst<br><br>second") 3))
  /\ files w !! str "output/demo/chapters/2_the-title.html"
     = Some (str "<h1>chapter</h1>the titlefirst<br><br>second").
Proof. vm_compute. repeat split. Qed.
